(** * Coverage reporter: [scripts/analyze_coverage.py]

    A shallow embedding of the script that folds the records of a Go
    coverage profile into per-package counters and prints two tables.

    Conventions of the embedding.
    - Python [str] is [string]; a character is a code point below 256.
    - Python [int] is [Z] (unbounded).
    - Python [float] is IEEE binary64, as [spec_float] with [prec = 53] and
      [emax = 1024], rounded to nearest, ties to even.
    - The dictionary [pkg_stats] is a [gmap string stats]; the lazily
      created default entry of the [defaultdict] is [{total: 0, covered: 0}].
    - An exception that escapes is a [Raise]; standard output is the list of
      the arguments of the [print] calls, in order.
    - The input of the loop is the list of lines that iterating over the
      file yields; [file] adds what [open] and the iteration may raise.
    - The conversions between [int] and decimal text obey the limit of
      4300 digits that the interpreter sets by default. *)

From Stdlib Require Import ZArith List Ascii String Bool Lia Permutation.
From Stdlib Require Import DecimalString.
From Stdlib Require Import Floats.SpecFloat.
From Stdlib Require Import Sorted.
From stdpp Require Import gmap strings.

Local Open Scope string_scope.
Local Open Scope Z_scope.

(** ** Exceptions *)

(** [ValueError] is the error of a conversion between an integer and its
    decimal text; [OSError] is what [open] or a read raises, and
    [UnicodeDecodeError] what the iteration raises on bytes it cannot
    decode. *)
Inductive exn :=
| ValueError
| OverflowError
| ZeroDivisionError
| OSError
| UnicodeDecodeError.

Inductive result (A : Type) :=
| Ok (a : A)
| Raise (e : exn).
Arguments Ok {A} a.
Arguments Raise {A} e.

Definition bind {A B} (r : result A) (k : A -> result B) : result B :=
  match r with
  | Ok a => k a
  | Raise e => Raise e
  end.

Notation "'let*' x ':=' r 'in' k" := (bind r (fun x => k))
  (at level 10, x name, r at level 100, k at level 200).

(** ** The string methods the script calls *)

Module PyStr.

(** [str.isspace] on code points below 256: TAB, LF, VT, FF, CR, the four
    separators 0x1c to 0x1f, SPACE, NEL (0x85) and NBSP (0xa0). *)
Definition is_space (c : ascii) : bool :=
  let n := N_of_ascii c in
  ((9 <=? n) && (n <=? 13) || (28 <=? n) && (n <=? 32)
   || (n =? 133) || (n =? 160))%N.

(** [s.startswith(p)] *)
Fixpoint startswith (p s : string) : bool :=
  match p, s with
  | EmptyString, _ => true
  | String a p', String b s' => if Ascii.eqb a b then startswith p' s' else false
  | String _ _, EmptyString => false
  end.

Fixpoint lstrip (s : string) : string :=
  match s with
  | EmptyString => EmptyString
  | String c r => if is_space c then lstrip r else s
  end.

Fixpoint rstrip (s : string) : string :=
  match s with
  | EmptyString => EmptyString
  | String c r =>
      match rstrip r with
      | EmptyString => if is_space c then EmptyString else String c EmptyString
      | r' => String c r'
      end
  end.

(** [s.strip()] *)
Definition strip (s : string) : string := lstrip (rstrip s).

(** [s.split()]: the maximal runs of characters that are not whitespace. *)
Fixpoint split (s : string) : list string :=
  match s with
  | EmptyString => []
  | String c r =>
      if is_space c then split r
      else
        match r with
        | EmptyString => [String c EmptyString]
        | String d _ =>
            if is_space d then String c EmptyString :: split r
            else
              match split r with
              | w :: ws => String c w :: ws
              | [] => [String c EmptyString]
              end
        end
  end.

(** [s.split(sep)] for a separator of one character: never empty. *)
Fixpoint split_on (sep : ascii) (s : string) : list string :=
  match s with
  | EmptyString => [EmptyString]
  | String c r =>
      if Ascii.eqb c sep then EmptyString :: split_on sep r
      else
        match split_on sep r with
        | w :: ws => String c w :: ws
        | [] => [String c EmptyString]
        end
  end.

(** [l[0]] and [l[-1]] on the result of [split_on], which is not empty. *)
Definition first (l : list string) : string := hd EmptyString l.
Definition last (l : list string) : string := List.last l EmptyString.

(** ["-" * n] *)
Fixpoint repeat (c : ascii) (n : nat) : string :=
  match n with
  | O => EmptyString
  | S n' => String c (repeat c n')
  end.

(** Format specifications [{s:<w}] and [{s:>w}]: pad with spaces up to the
    width, never truncate. *)
Definition ljust (w : nat) (s : string) : string :=
  s ++ repeat " " (w - String.length s).
Definition rjust (w : nat) (s : string) : string :=
  repeat " " (w - String.length s) ++ s.

End PyStr.

(** ** [int(str)] in base 10 *)

Module PyInt.

Definition digit_of (c : ascii) : option Z :=
  let n := Z.of_N (N_of_ascii c) in
  if (48 <=? n) && (n <=? 57) then Some (n - 48) else None.

(** The rest of a literal after a digit: digits, each optionally preceded
    by one underscore. [us] records that the previous character was an
    underscore, which must be followed by a digit. *)
Fixpoint digits (acc : Z) (us : bool) (s : string) : option Z :=
  match s with
  | EmptyString => if us then None else Some acc
  | String c r =>
      if Ascii.eqb c "_" then (if us then None else digits acc true r)
      else
        match digit_of c with
        | Some d => digits (10 * acc + d) false r
        | None => None
        end
  end.

Definition unsigned (s : string) : option Z :=
  match s with
  | EmptyString => None
  | String c r =>
      match digit_of c with
      | Some d => digits d false r
      | None => None
      end
  end.

Definition literal (s : string) : option Z :=
  match s with
  | String c r =>
      if Ascii.eqb c "+" then unsigned r
      else if Ascii.eqb c "-" then Z.opp <$> unsigned r
      else unsigned s
  | EmptyString => None
  end.

(** The whitespace that [int] drops around a literal: TAB, LF, VT, FF, CR,
    SPACE, NEL and NBSP, but not the separators 0x1c to 0x1f. *)
Definition int_space (c : ascii) : bool :=
  let n := N_of_ascii c in
  ((9 <=? n) && (n <=? 13) || (n =? 32) || (n =? 133) || (n =? 160))%N.

Fixpoint ltrim (s : string) : string :=
  match s with
  | EmptyString => EmptyString
  | String c r => if int_space c then ltrim r else s
  end.

Fixpoint rtrim (s : string) : string :=
  match s with
  | EmptyString => EmptyString
  | String c r =>
      match rtrim r with
      | EmptyString => if int_space c then EmptyString else String c EmptyString
      | r' => String c r'
      end
  end.

Definition trim (s : string) : string := ltrim (rtrim s).

(** [sys.get_int_max_str_digits()], as the interpreter sets it by default. *)
Definition max_str_digits : N := 4300.

(** The digits of a literal, leading zeros among them; a sign and
    underscores are not counted. *)
Fixpoint count_digits (s : string) : N :=
  match s with
  | EmptyString => 0
  | String c r =>
      ((match digit_of c with Some _ => 1 | None => 0 end) + count_digits r)%N
  end.

(** [int(s)]: surrounding whitespace is dropped, then an optional sign and
    a decimal literal of at most [max_str_digits] digits; anything else
    raises [ValueError]. *)
Definition int (s : string) : result Z :=
  let t := trim s in
  match literal t with
  | Some z =>
      if (max_str_digits <? count_digits t)%N then Raise ValueError else Ok z
  | None => Raise ValueError
  end.

(** The number of decimal digits of [n], its sign apart. *)
Definition decimal_digits (n : Z) : N :=
  N.of_nat (Decimal.nb_digits (N.to_uint (Z.abs_N n))).

(** Converting [n] to decimal text, as a format specification such as
    [{n:>4}] does, raises [ValueError] when [n] has more than
    [max_str_digits] digits. *)
Definition exceeds_limit (n : Z) : bool :=
  (max_str_digits <? decimal_digits n)%N.

End PyInt.

(** ** [float]: IEEE binary64 *)

Module PyFloat.

Definition prec : Z := 53.
Definition emax : Z := 1024.

(** [float(n)] for an integer [n], correctly rounded. *)
Definition of_int (n : Z) : spec_float := binary_normalize prec emax n 0 false.

(** An integer as an exact significand with exponent 0, not rounded. *)
Definition exact (n : Z) : spec_float :=
  match n with
  | Z0 => S754_zero false
  | Zpos p => S754_finite false p 0
  | Zneg p => S754_finite true p 0
  end.

(** [a / b] on two integers: the exact quotient rounded once. Division by
    zero raises [ZeroDivisionError], a quotient too large for a float
    raises [OverflowError]. *)
Definition true_div (a b : Z) : result spec_float :=
  if b =? 0 then Raise ZeroDivisionError
  else
    match SFdiv prec emax (exact a) (exact b) with
    | S754_infinity _ => Raise OverflowError
    | q => Ok q
    end.

(** [x * n] for a float [x] and an integer [n] that a float holds. *)
Definition mul_int (x : spec_float) (n : Z) : spec_float :=
  SFmul prec emax x (of_int n).

(** [x >= n] and [x < n] for a float [x] and an integer [n] that a float
    holds exactly. *)
Definition ge_int (x : spec_float) (n : Z) : bool := SFleb (of_int n) x.
Definition lt_int (x : spec_float) (n : Z) : bool := SFltb x (of_int n).

(** [x < y] on floats, the comparison [list.sort] uses on its keys. *)
Definition lt (x y : spec_float) : bool := SFltb x y.

Definition str_of_Z (n : Z) : string := NilZero.string_of_int (Z.to_int n).

(** The integer nearest to [10 * m * 2^e], ties to even. *)
Definition tenths (m : positive) (e : Z) : Z :=
  let n := 10 * Zpos m in
  if 0 <=? e then n * 2 ^ e
  else
    let d := 2 ^ (- e) in
    let q := n / d in
    let r := n mod d in
    match 2 * r ?= d with
    | Lt => q
    | Eq => if Z.even q then q else q + 1
    | Gt => q + 1
    end.

(** The format specification [.1f]: one digit after the point, the exact
    binary value rounded to nearest, ties to even. *)
Definition format_1f (x : spec_float) : string :=
  match x with
  | S754_zero s => (if s then "-" else "") ++ "0.0"
  | S754_infinity s => (if s then "-" else "") ++ "inf"
  | S754_nan => "nan"
  | S754_finite s m e =>
      let t := tenths m e in
      (if s then "-" else "") ++ str_of_Z (t / 10) ++ "." ++ str_of_Z (t mod 10)
  end.

End PyFloat.

(** ** The script *)

Module Coverage.
Import PyStr PyInt PyFloat.

(** An entry of [pkg_stats]: [{'total': _, 'covered': _}]. *)
Record stats := { total : Z; covered : Z }.

(** What the [defaultdict] creates for a key it does not hold. *)
Definition fresh : stats := {| total := 0; covered := 0 |}.

(** [pkg_stats[pkg]]. *)
Definition entry (pkg : string) (pkg_stats : gmap string stats) : stats :=
  default fresh (pkg_stats !! pkg).

(** [pkg_stats[pkg]['total'] += n] *)
Definition add_total (pkg : string) (n : Z) (pkg_stats : gmap string stats)
  : gmap string stats :=
  let s := entry pkg pkg_stats in
  <[pkg := {| total := total s + n; covered := covered s |}]> pkg_stats.

(** [pkg_stats[pkg]['covered'] += n] *)
Definition add_covered (pkg : string) (n : Z) (pkg_stats : gmap string stats)
  : gmap string stats :=
  let s := entry pkg pkg_stats in
  <[pkg := {| total := total s; covered := covered s + n |}]> pkg_stats.

(** The literal part of the pattern of the script. *)
Definition repo_root : string := "github.com/junbin-yang/go-kitbox/pkg/".

Fixpoint strip_prefix (p s : string) : option string :=
  match p, s with
  | EmptyString, _ => Some s
  | String a p', String b s' => if Ascii.eqb a b then strip_prefix p' s' else None
  | String _ _, EmptyString => None
  end.

(** The longest prefix without ["/"], what the greedy [[^/]+] consumes. *)
Fixpoint segment (s : string) : string :=
  match s with
  | EmptyString => EmptyString
  | String c r => if Ascii.eqb c "/" then EmptyString else String c (segment r)
  end.

Section Script.

(** The script is embedded for any literal [root] before the package
    segment; the script itself is the instance at [repo_root]. *)
Variable root : string.

(** [re.match(r'(root[^/]+)', file_path)] and its group 1: the path must
    start with [root], followed by at least one character other than
    ["/"]. *)
Definition pkg_match (file_path : string) : option string :=
  match strip_prefix root file_path with
  | Some rest =>
      match segment rest with
      | EmptyString => None
      | seg => Some (root ++ seg)
      end
  | None => None
  end.

(** The body of the loop over the lines of the file. *)
Definition process_line (pkg_stats : gmap string stats) (line : string)
  : result (gmap string stats) :=
  if startswith "mode:" line then Ok pkg_stats
  else
    let parts := split (strip line) in
    if (length parts <? 3)%nat then Ok pkg_stats
    else
      let file_path := first (split_on ":" (nth 0 parts "")) in
      let* covered := int (nth 2 parts "") in
      match pkg_match file_path with
      | Some pkg =>
          let* statements := int (nth 1 parts "") in
          let pkg_stats := add_total pkg statements pkg_stats in
          Ok (if 0 <? covered then add_covered pkg statements pkg_stats
              else pkg_stats)
      | None => Ok pkg_stats
      end.

Fixpoint read_lines (pkg_stats : gmap string stats) (lines : list string)
  : result (gmap string stats) :=
  match lines with
  | [] => Ok pkg_stats
  | line :: rest =>
      let* pkg_stats := process_line pkg_stats line in
      read_lines pkg_stats rest
  end.

End Script.

(** A stable sort, as [sorted] and [list.sort] are: an element goes before
    the first one that is not smaller than it. *)
Section Sort.
Context {A : Type} (lt : A -> A -> bool).

Fixpoint insert_sorted (x : A) (l : list A) : list A :=
  match l with
  | [] => [x]
  | y :: l' => if lt y x then y :: insert_sorted x l' else x :: l
  end.

Fixpoint sort (l : list A) : list A :=
  match l with
  | [] => []
  | x :: l' => insert_sorted x (sort l')
  end.
End Sort.

(** [sorted(pkg_stats.items())]: the keys are distinct, so the order is the
    order of the keys, code point by code point. *)
Definition sorted_items (pkg_stats : gmap string stats) : list (string * stats) :=
  sort (fun a b => String.ltb a.1 b.1) (map_to_list pkg_stats).

(** A tuple [(pkg, coverage, status, total, covered)] of [results]. *)
Record row := {
  row_pkg : string;
  row_coverage : spec_float;
  row_status : string;
  row_total : Z;
  row_covered : Z
}.

(** ["Good" if coverage >= 75 else "Needs Work"] *)
Definition status_of (coverage : spec_float) : string :=
  if ge_int coverage 75 then "Good" else "Needs Work".

(** One turn of the loop that fills [results]. *)
Definition make_row (item : string * stats) : result (option row) :=
  let '(pkg, s) := item in
  if 0 <? total s then
    let* q := true_div (covered s) (total s) in
    let coverage := mul_int q 100 in
    Ok (Some {| row_pkg := pkg; row_coverage := coverage;
                row_status := status_of coverage;
                row_total := total s; row_covered := covered s |})
  else Ok None.

Fixpoint build_results (items : list (string * stats)) : result (list row) :=
  match items with
  | [] => Ok []
  | item :: rest =>
      let* r := make_row item in
      let* rs := build_results rest in
      Ok (match r with Some x => x :: rs | None => rs end)
  end.

(** [results.sort(key=lambda x: x[1])] *)
Definition sort_results (results : list row) : list row :=
  sort (fun a b => lt (row_coverage a) (row_coverage b)) results.

(** [sum(...)] of integers. *)
Definition sum (l : list Z) : Z := fold_left Z.add l 0.

(** [pkg_stats.values()] *)
Definition values (pkg_stats : gmap string stats) : list stats :=
  (map_to_list pkg_stats).*2.

Definition overall_total (pkg_stats : gmap string stats) : Z :=
  sum (total <$> values pkg_stats).
Definition overall_covered (pkg_stats : gmap string stats) : Z :=
  sum (covered <$> values pkg_stats).

(** The value of [overall_coverage]: a float, or the integer [0]. *)
Inductive number :=
| Int (n : Z)
| Float (x : spec_float).

Definition overall_coverage (pkg_stats : gmap string stats) : result number :=
  if 0 <? overall_total pkg_stats then
    let* q := true_div (overall_covered pkg_stats) (overall_total pkg_stats) in
    Ok (Float (mul_int q 100))
  else Ok (Int 0).

(** [.1f] applied to a number converts an integer to a float first. *)
Definition format_number_1f (v : number) : string :=
  match v with
  | Int n => format_1f (of_int n)
  | Float x => format_1f x
  end.

(** [pkg.split('/')[-1]] *)
Definition pkg_name (pkg : string) : string := last (split_on "/" pkg).

Definition missing (r : row) : Z := row_total r - row_covered r.

Definition needs_improvement (r : row) : bool := lt_int (row_coverage r) 75.

Definition divider : string := repeat "-" 80.

Definition header : list string :=
  [ "Coverage by Package:"; divider;
    ljust 50 "Package" ++ " " ++ rjust 10 "Coverage" ++ " " ++ rjust 15 "Status";
    divider ].

Definition row_line (r : row) : string :=
  ljust 50 (pkg_name (row_pkg r)) ++ " "
    ++ rjust 9 (format_1f (row_coverage r)) ++ "% " ++ rjust 15 (row_status r).

Definition overall_line (v : number) : string :=
  ljust 50 "Overall" ++ " " ++ rjust 9 (format_number_1f v) ++ "%".

Definition improvement_title : string :=
  String (ascii_of_nat 10) "Packages needing improvement (< 75% coverage):".

Definition improvement_line (r : row) : string :=
  ljust 30 (pkg_name (row_pkg r)) ++ " "
    ++ rjust 6 (format_1f (row_coverage r)) ++ "%  (need "
    ++ rjust 4 (str_of_Z (missing r)) ++ " more statements)".

(** The rows of the second table. *)
Definition improvement_rows (results : list row) : list row :=
  List.filter needs_improvement results.

(** The loop that prints the second table: the line of a row is built
    before it is printed, and building it converts [missing] to decimal
    text, which raises beyond [max_str_digits] digits; [improvement_line]
    is the line otherwise. The result is what was printed and the
    exception that ended the loop, if one did. *)
Fixpoint print_improvements (results : list row) : list string * option exn :=
  match results with
  | [] => ([], None)
  | r :: rest =>
      if needs_improvement r then
        if exceeds_limit (missing r) then ([], Some ValueError)
        else
          let printed := print_improvements rest in
          (improvement_line r :: printed.1, printed.2)
      else print_improvements rest
  end.

(** What a run leaves: the printed lines and the exception that ended it,
    if one did. *)
Record run := { stdout : list string; raised : option exn }.

(** The whole script on the lines of [coverage.out]. *)
Definition main_with (root : string) (lines : list string) : run :=
  match read_lines root ∅ lines with
  | Raise e => {| stdout := []; raised := Some e |}
  | Ok pkg_stats =>
      match build_results (sorted_items pkg_stats) with
      | Raise e => {| stdout := header; raised := Some e |}
      | Ok results =>
          let results := sort_results results in
          let table := (header ++ (row_line <$> results) ++ [divider])%list in
          match overall_coverage pkg_stats with
          | Raise e => {| stdout := table; raised := Some e |}
          | Ok v =>
              let printed := print_improvements results in
              {| stdout :=
                   (table ++ [overall_line v; ""; improvement_title; divider]
                      ++ printed.1)%list;
                 raised := printed.2 |}
          end
      end
  end.

Definition main : list string -> run := main_with repo_root.

(** How the iteration over the file stops: at the end of the file, on
    bytes that cannot be decoded, or on a read that fails. *)
Inductive ending := EndOfFile | DecodeError | ReadError.

Definition ending_exn (stop : ending) : option exn :=
  match stop with
  | EndOfFile => None
  | DecodeError => Some UnicodeDecodeError
  | ReadError => Some OSError
  end.

(** What [open] and the iteration over the file deliver to the script:
    [open] raises [OSError] (no such file, no permission), or the file
    yields lines until the iteration stops. *)
Inductive file :=
| Unopened
| Opened (lines : list string) (stop : ending).

(** The [with] block: [open], then the loop over what the file yields. *)
Definition read_file (root : string) (f : file) : result (gmap string stats) :=
  match f with
  | Unopened => Raise OSError
  | Opened lines stop =>
      let* pkg_stats := read_lines root ∅ lines in
      match ending_exn stop with
      | None => Ok pkg_stats
      | Some e => Raise e
      end
  end.

(** The script from [open] on: nothing is printed before the [with] block
    has ended. *)
Definition run_file (root : string) (f : file) : run :=
  match f with
  | Opened lines EndOfFile => main_with root lines
  | _ =>
      match read_file root f with
      | Raise e => {| stdout := []; raised := Some e |}
      | Ok _ => {| stdout := []; raised := None |}
      end
  end.

Definition script : file -> run := run_file repo_root.

(** *** The loop body seen as a record

    What a line does to [pkg_stats] is decided by the line alone: it is
    skipped, it raises, or it is one record folded into one entry. *)

Inductive effect :=
| Skipped
| Raised (e : exn)
| Folded (pkg : string) (statements covered : Z).

Definition line_effect (root line : string) : effect :=
  if startswith "mode:" line then Skipped
  else
    let parts := split (strip line) in
    if (length parts <? 3)%nat then Skipped
    else
      match int (nth 2 parts "") with
      | Raise e => Raised e
      | Ok covered =>
          match pkg_match root (first (split_on ":" (nth 0 parts ""))) with
          | None => Skipped
          | Some pkg =>
              match int (nth 1 parts "") with
              | Raise e => Raised e
              | Ok statements => Folded pkg statements covered
              end
          end
      end.

(** The two updates of one record on its entry. *)
Definition bump (statements covered : Z) (s : stats) : stats :=
  {| total := total s + statements;
     covered := Coverage.covered s + (if 0 <? covered then statements else 0) |}.

Definition apply_effect (f : effect) (pkg_stats : gmap string stats)
  : result (gmap string stats) :=
  match f with
  | Skipped => Ok pkg_stats
  | Raised e => Raise e
  | Folded pkg statements covered =>
      Ok (<[pkg := bump statements covered (entry pkg pkg_stats)]> pkg_stats)
  end.

(** A line is well formed when the record it folds, if it folds one, has a
    statement count that is not negative, as the records of a coverage
    profile have. *)
Definition well_formed (root line : string) : bool :=
  match line_effect root line with
  | Folded _ statements _ => 0 <=? statements
  | _ => true
  end.

(** The number of further covered statements with which [covered / total]
    reaches three quarters: the reading of "need n more statements" that
    the script does not compute. *)
Definition required_for_threshold (total covered : Z) : Z :=
  Z.max 0 ((3 * total + 3) / 4 - covered).

(** The invariant of the aggregates. *)
Definition covered_bounded (pkg_stats : gmap string stats) : Prop :=
  forall pkg s, pkg_stats !! pkg = Some s -> Coverage.covered s <= total s.

(** What the loop that fills [results] puts in the row of an item. *)
Definition row_of (item : string * stats) (r : row) : Prop :=
  0 < total item.2 /\
  row_pkg r = item.1 /\
  row_total r = total item.2 /\
  row_covered r = Coverage.covered item.2 /\
  row_status r = status_of (row_coverage r) /\
  exists q, true_div (Coverage.covered item.2) (total item.2) = Ok q /\
            row_coverage r = mul_int q 100.

(** *** The records of a package

    What one line adds to the entry of [pkg]: its statement count when the
    line is a record of [pkg], and that count again for [covered] when its
    execution count is positive. *)

Definition folds_into (root pkg line : string) : bool :=
  match line_effect root line with
  | Folded p _ _ => String.eqb p pkg
  | _ => false
  end.

Definition line_statements (root pkg line : string) : Z :=
  match line_effect root line with
  | Folded p statements _ => if String.eqb p pkg then statements else 0
  | _ => 0
  end.

Definition line_covered (root pkg line : string) : Z :=
  match line_effect root line with
  | Folded p statements covered =>
      if String.eqb p pkg && (0 <? covered) then statements else 0
  | _ => 0
  end.

(** A line on which a conversion to an integer fails. *)
Definition raises (root line : string) : bool :=
  match line_effect root line with
  | Raised _ => true
  | _ => false
  end.

(** A string of whitespace only. *)
Definition blank (s : string) : Prop :=
  Forall (fun c => is_space c = true) (list_ascii_of_string s).

(** A string without the separator of path segments. *)
Definition no_slash (s : string) : Prop := ~ In "/"%char (list_ascii_of_string s).

(** Percentages in the order of the report: no row is below the one before
    it. *)
Definition ascending (results : list row) : Prop :=
  Sorted (fun r1 r2 => SFleb (row_coverage r1) (row_coverage r2) = true) results.

End Coverage.

Import PyStr PyInt PyFloat Coverage.

(** * Properties *)

(** ** The loop body *)

Lemma int_raises_value_error s e : int s = Raise e -> e = ValueError.
Proof.
  unfold int. destruct (literal _); [destruct (_ <? _)%N|]; congruence.
Qed.

Lemma process_line_effect root pkg_stats line :
  process_line root pkg_stats line = apply_effect (line_effect root line) pkg_stats.
Proof.
  unfold process_line, line_effect.
  destruct (startswith _ _); [reflexivity|].
  destruct (_ <? _)%nat; [reflexivity|].
  destruct (int (nth 2 _ _)) as [c|e]; simpl; [|reflexivity].
  destruct (pkg_match _ _) as [pkg|]; [|reflexivity].
  destruct (int (nth 1 _ _)) as [n|e]; simpl; [|reflexivity].
  f_equal. unfold bump, add_covered, add_total, entry.
  destruct (0 <? c); simpl.
  - rewrite lookup_insert_eq, insert_insert_eq. simpl. reflexivity.
  - do 2 f_equal. lia.
Qed.

Lemma line_effect_raises root line e : line_effect root line = Raised e -> e = ValueError.
Proof.
  unfold line_effect.
  destruct (startswith _ _); [discriminate|].
  destruct (_ <? _)%nat; [discriminate|].
  destruct (int (nth 2 _ _)) as [c|e2] eqn:E2.
  - destruct (pkg_match _ _); [|discriminate].
    destruct (int (nth 1 _ _)) as [n|e1] eqn:E1; [discriminate|].
    intros [= <-]. eauto using int_raises_value_error.
  - intros [= <-]. eauto using int_raises_value_error.
Qed.

Lemma entry_insert_eq pkg s (pkg_stats : gmap string stats) :
  entry pkg (<[pkg := s]> pkg_stats) = s.
Proof. unfold entry. by rewrite lookup_insert_eq. Qed.

Lemma entry_insert_ne pkg other s (pkg_stats : gmap string stats) :
  pkg <> other -> entry other (<[pkg := s]> pkg_stats) = entry other pkg_stats.
Proof. intros H. unfold entry. by rewrite lookup_insert_ne. Qed.

Lemma line_effect_fields root line p0 p1 p2 rest :
  startswith "mode:" line = false ->
  split (strip line) = p0 :: p1 :: p2 :: rest ->
  line_effect root line =
    match int p2 with
    | Raise e => Raised e
    | Ok count =>
        match pkg_match root (first (split_on ":" p0)) with
        | None => Skipped
        | Some pkg =>
            match int p1 with
            | Raise e => Raised e
            | Ok statements => Folded pkg statements count
            end
        end
    end.
Proof. intros Hmode Hparts. unfold line_effect. rewrite Hmode, Hparts. reflexivity. Qed.

Lemma line_effect_mode root line :
  startswith "mode:" line = true -> line_effect root line = Skipped.
Proof. intros H. unfold line_effect. rewrite H. reflexivity. Qed.

Lemma line_effect_short root line :
  (length (split (strip line)) < 3)%nat -> line_effect root line = Skipped.
Proof.
  intros H. unfold line_effect. destruct (startswith _ _); [reflexivity|].
  apply Nat.ltb_lt in H. rewrite H. reflexivity.
Qed.

(** ** The loop *)

Lemma read_lines_app root pkg_stats l1 l2 :
  read_lines root pkg_stats (l1 ++ l2) =
    let* pkg_stats' := read_lines root pkg_stats l1 in read_lines root pkg_stats' l2.
Proof.
  revert pkg_stats. induction l1 as [|line l1 IH]; intros m; simpl; [reflexivity|].
  destruct (process_line root m line); simpl; auto.
Qed.

Lemma read_lines_raises root lines : forall pkg_stats e,
  read_lines root pkg_stats lines = Raise e -> e = ValueError.
Proof.
  induction lines as [|line lines IH]; intros m e; simpl; [discriminate|].
  rewrite process_line_effect.
  destruct (line_effect root line) as [|e'|pkg n c] eqn:E; simpl; eauto.
  intros [= <-]. eauto using line_effect_raises.
Qed.

Lemma read_lines_skip root line before after :
  line_effect root line = Skipped ->
  forall pkg_stats,
    read_lines root pkg_stats (before ++ line :: after) =
    read_lines root pkg_stats (before ++ after).
Proof.
  intros H m. rewrite !read_lines_app.
  destruct (read_lines root m before); simpl; [|reflexivity].
  rewrite process_line_effect, H. reflexivity.
Qed.

Lemma read_lines_fatal root line before after :
  line_effect root line = Raised ValueError ->
  forall pkg_stats,
    read_lines root pkg_stats (before ++ line :: after) = Raise ValueError.
Proof.
  intros H m. rewrite read_lines_app.
  destruct (read_lines root m before) as [m'|e] eqn:E; simpl.
  - rewrite process_line_effect, H. reflexivity.
  - f_equal. eauto using read_lines_raises.
Qed.

Lemma main_with_read_lines root lines lines' :
  read_lines root ∅ lines = read_lines root ∅ lines' ->
  main_with root lines = main_with root lines'.
Proof. intros H. unfold main_with. rewrite H. reflexivity. Qed.

(** ** Claims about one line *)

(** C1. A line that parses to a record whose path matches the pattern is
    folded into the entry of its package: [total] grows by the statement
    count whatever the execution count, [covered] grows by the statement
    count exactly when the execution count is positive (so not when it is
    0), and no other entry changes. *)
Theorem record_folded_into_aggregate
    root pkg_stats line p0 p1 p2 rest pkg statements count :
  startswith "mode:" line = false ->
  split (strip line) = p0 :: p1 :: p2 :: rest ->
  int p1 = Ok statements ->
  int p2 = Ok count ->
  pkg_match root (first (split_on ":" p0)) = Some pkg ->
  exists pkg_stats',
    process_line root pkg_stats line = Ok pkg_stats' /\
    total (entry pkg pkg_stats') = total (entry pkg pkg_stats) + statements /\
    covered (entry pkg pkg_stats') =
      covered (entry pkg pkg_stats) + (if 0 <? count then statements else 0) /\
    (count = 0 -> covered (entry pkg pkg_stats') = covered (entry pkg pkg_stats)) /\
    is_Some (pkg_stats' !! pkg) /\
    (forall other, other <> pkg -> pkg_stats' !! other = pkg_stats !! other).
Proof.
  intros Hmode Hparts Hn Hc Hpkg.
  rewrite process_line_effect, (line_effect_fields _ _ _ _ _ _ Hmode Hparts).
  rewrite Hc, Hpkg, Hn. simpl. eexists; split; [reflexivity|].
  rewrite !entry_insert_eq. simpl.
  split; [reflexivity|]. split; [reflexivity|]. split; [|split].
  - intros ->. simpl. lia.
  - rewrite lookup_insert_eq. eauto.
  - intros other Hne. by rewrite lookup_insert_ne.
Qed.

Lemma record_folded_into_aggregate_witness :
  exists pkg_stats',
    process_line repo_root ∅
      "github.com/junbin-yang/go-kitbox/pkg/a/file2.go:3.1,4.2 10 0" = Ok pkg_stats' /\
    total (entry "github.com/junbin-yang/go-kitbox/pkg/a" pkg_stats') = 0 + 10 /\
    covered (entry "github.com/junbin-yang/go-kitbox/pkg/a" pkg_stats') = 0 + 0.
Proof.
  destruct (record_folded_into_aggregate repo_root ∅
              "github.com/junbin-yang/go-kitbox/pkg/a/file2.go:3.1,4.2 10 0"
              "github.com/junbin-yang/go-kitbox/pkg/a/file2.go:3.1,4.2" "10" "0" []
              "github.com/junbin-yang/go-kitbox/pkg/a" 10 0)
    as (m & H1 & H2 & H3 & _); try reflexivity.
  exists m. split; [exact H1|]. split; [exact H2|exact H3].
Defined.

(** C6. A line with fewer than three whitespace-separated fields, and a
    line that starts with [mode:], is skipped: the loop body returns the
    aggregates it was given and raises nothing, and the whole run, output
    included, is the run of the input without that line. *)
Theorem malformed_line_skipped root line :
  (length (split (strip line)) < 3)%nat \/ startswith "mode:" line = true ->
  (forall pkg_stats, process_line root pkg_stats line = Ok pkg_stats) /\
  (forall before after,
     main_with root (before ++ line :: after) = main_with root (before ++ after)).
Proof.
  intros H.
  assert (line_effect root line = Skipped) as E
    by (destruct H; auto using line_effect_short, line_effect_mode).
  split.
  - intros m. rewrite process_line_effect, E. reflexivity.
  - intros. apply main_with_read_lines, read_lines_skip, E.
Qed.

Lemma malformed_line_skipped_witness :
  process_line repo_root ∅ "github.com/junbin-yang/go-kitbox/pkg/a/f.go:1.1,2.2 5" = Ok ∅ /\
  main ["mode: set"; "github.com/junbin-yang/go-kitbox/pkg/a/f.go:1.1,2.2 5"] = main ["mode: set"].
Proof.
  destruct (malformed_line_skipped repo_root
              "github.com/junbin-yang/go-kitbox/pkg/a/f.go:1.1,2.2 5") as [H1 H2].
  - left. vm_compute. lia.
  - split; [apply H1 | apply (H2 ["mode: set"] [])].
Defined.

(** C7, as the script has it. A line whose path does not match the pattern
    and whose execution count is an integer literal contributes nothing:
    the loop body returns the aggregates unchanged and raises nothing,
    whatever the statement count field holds, and the whole run is the run
    of the input without that line. *)
Theorem unmatched_path_contributes_nothing root line p0 p1 p2 rest count :
  split (strip line) = p0 :: p1 :: p2 :: rest ->
  pkg_match root (first (split_on ":" p0)) = None ->
  int p2 = Ok count ->
  (forall pkg_stats, process_line root pkg_stats line = Ok pkg_stats) /\
  (forall before after,
     main_with root (before ++ line :: after) = main_with root (before ++ after)).
Proof.
  intros Hparts Hpkg Hc.
  assert (line_effect root line = Skipped) as E.
  { destruct (startswith "mode:" line) eqn:Hmode; [by apply line_effect_mode|].
    rewrite (line_effect_fields _ _ _ _ _ _ Hmode Hparts), Hc, Hpkg. reflexivity. }
  split.
  - intros m. rewrite process_line_effect, E. reflexivity.
  - intros. apply main_with_read_lines, read_lines_skip, E.
Qed.

Lemma unmatched_path_contributes_nothing_witness :
  process_line repo_root ∅ "example.com/other/cmd/x.go:1.1,2.2 many 1" = Ok ∅ /\
  main ["example.com/other/cmd/x.go:1.1,2.2 many 1"] = main [].
Proof.
  destruct (unmatched_path_contributes_nothing repo_root
              "example.com/other/cmd/x.go:1.1,2.2 many 1"
              "example.com/other/cmd/x.go:1.1,2.2" "many" "1" [] 1) as [H1 H2];
    try reflexivity.
  split; [apply H1 | apply (H2 [] [])].
Defined.

(** C7, as stated, fails: a line whose path does not match the pattern but
    whose execution count is not an integer literal ends the run with
    [ValueError], because the count is converted before the path is
    matched. *)
Lemma unmatched_path_can_raise :
  let line := "example.com/other/cmd/x.go:1.1,2.2 3 abc" in
  pkg_match repo_root (first (split_on ":" (nth 0 (split (strip line)) ""))) = None /\
  process_line repo_root ∅ line = Raise ValueError /\
  main [line] = {| stdout := []; raised := Some ValueError |}.
Proof. vm_compute. auto. Qed.

(** C10, as the script has it. A line that does not start with [mode:],
    has at least three fields and whose third field is not an integer
    literal ends the run with [ValueError] before anything is printed,
    whether or not its path matches the pattern. *)
Theorem bad_execution_count_is_fatal root line p0 p1 p2 rest :
  startswith "mode:" line = false ->
  split (strip line) = p0 :: p1 :: p2 :: rest ->
  int p2 = Raise ValueError ->
  (forall pkg_stats, process_line root pkg_stats line = Raise ValueError) /\
  (forall before after,
     main_with root (before ++ line :: after) =
       {| stdout := []; raised := Some ValueError |}).
Proof.
  intros Hmode Hparts Hc.
  assert (line_effect root line = Raised ValueError) as E
    by (rewrite (line_effect_fields _ _ _ _ _ _ Hmode Hparts), Hc; reflexivity).
  split.
  - intros m. rewrite process_line_effect, E. reflexivity.
  - intros. unfold main_with. rewrite (read_lines_fatal _ _ _ _ E). reflexivity.
Qed.

Lemma bad_execution_count_is_fatal_witness :
  process_line repo_root ∅ "example.com/other/cmd/x.go:1.1,2.2 3 abc" = Raise ValueError /\
  main ["github.com/junbin-yang/go-kitbox/pkg/a/f.go:1.1,2.2 5 1";
        "example.com/other/cmd/x.go:1.1,2.2 3 abc"] =
    {| stdout := []; raised := Some ValueError |}.
Proof.
  destruct (bad_execution_count_is_fatal repo_root
              "example.com/other/cmd/x.go:1.1,2.2 3 abc"
              "example.com/other/cmd/x.go:1.1,2.2" "3" "abc" []) as [H1 H2];
    try reflexivity.
  split; [apply H1|].
  apply (H2 ["github.com/junbin-yang/go-kitbox/pkg/a/f.go:1.1,2.2 5 1"] []).
Defined.

(** C10, as stated, fails: a line that starts with [mode:] is skipped before
    its fields are looked at, so three fields with a third that is not an
    integer literal raise nothing there. *)
Lemma mode_line_with_bad_count_is_skipped :
  let line := "mode: set extra" in
  split (strip line) = ["mode:"; "set"; "extra"] /\
  int "extra" = Raise ValueError /\
  process_line repo_root ∅ line = Ok ∅ /\
  raised (main [line]) = None.
Proof. vm_compute. auto. Qed.

(** ** Order of the lines *)

Lemma bump_comm n1 c1 n2 c2 s :
  bump n2 c2 (bump n1 c1 s) = bump n1 c1 (bump n2 c2 s).
Proof. unfold bump. simpl. f_equal; lia. Qed.

Lemma apply_effect_comm f g pkg_stats :
  (forall e, f = Raised e -> e = ValueError) ->
  (forall e, g = Raised e -> e = ValueError) ->
  (let* pkg_stats' := apply_effect f pkg_stats in apply_effect g pkg_stats') =
  (let* pkg_stats' := apply_effect g pkg_stats in apply_effect f pkg_stats').
Proof.
  intros Hf Hg.
  destruct f as [|e1|k1 n1 c1], g as [|e2|k2 n2 c2]; simpl; try reflexivity.
  - rewrite (Hf e1), (Hg e2); reflexivity.
  - f_equal. destruct (decide (k1 = k2)) as [->|Hne].
    + rewrite !entry_insert_eq, !insert_insert_eq. by rewrite bump_comm.
    + rewrite !entry_insert_ne by congruence. by apply insert_insert_ne.
Qed.

Lemma read_lines_swap root a b lines pkg_stats :
  read_lines root pkg_stats (a :: b :: lines) =
  read_lines root pkg_stats (b :: a :: lines).
Proof.
  simpl. rewrite !process_line_effect.
  pose proof (apply_effect_comm (line_effect root a) (line_effect root b) pkg_stats
                (line_effect_raises root a) (line_effect_raises root b)) as H.
  destruct (apply_effect (line_effect root a) pkg_stats) as [ma|ea] eqn:Ea,
           (apply_effect (line_effect root b) pkg_stats) as [mb|eb] eqn:Eb;
    simpl in *; rewrite ?process_line_effect.
  - by rewrite H.
  - by rewrite H.
  - by rewrite <- H.
  - exact H.
Qed.

Lemma read_lines_Permutation root lines lines' :
  Permutation lines lines' ->
  forall pkg_stats, read_lines root pkg_stats lines = read_lines root pkg_stats lines'.
Proof.
  induction 1 as [|x l l' _ IH|x y l|l l' l'' _ IH1 _ IH2]; intros m.
  - reflexivity.
  - simpl. destruct (process_line root m x); simpl; auto.
  - apply read_lines_swap.
  - by rewrite IH1.
Qed.

(** C3. If the lines of a file after any lines kept in place (the mode
    line, say) are permuted, the loop ends with the same aggregates for
    every package key, or with the same exception, and the whole run prints
    the same. *)
Theorem fold_order_independent root kept lines lines' :
  Permutation lines lines' ->
  read_lines root ∅ (kept ++ lines) = read_lines root ∅ (kept ++ lines') /\
  main_with root (kept ++ lines) = main_with root (kept ++ lines').
Proof.
  intros HP.
  assert (read_lines root ∅ (kept ++ lines) = read_lines root ∅ (kept ++ lines')) as E.
  { rewrite !read_lines_app. destruct (read_lines root ∅ kept); simpl; [|reflexivity].
    by apply read_lines_Permutation. }
  split; [exact E|]. by apply main_with_read_lines.
Qed.

Lemma fold_order_independent_witness :
  main ["mode: set";
        "github.com/junbin-yang/go-kitbox/pkg/a/file.go:1.1,2.2 5 1";
        "github.com/junbin-yang/go-kitbox/pkg/b/file.go:1.1,2.2 4 4"] =
  main ["mode: set";
        "github.com/junbin-yang/go-kitbox/pkg/b/file.go:1.1,2.2 4 4";
        "github.com/junbin-yang/go-kitbox/pkg/a/file.go:1.1,2.2 5 1"].
Proof.
  apply (fold_order_independent repo_root ["mode: set"]
           ["github.com/junbin-yang/go-kitbox/pkg/a/file.go:1.1,2.2 5 1";
            "github.com/junbin-yang/go-kitbox/pkg/b/file.go:1.1,2.2 4 4"]
           ["github.com/junbin-yang/go-kitbox/pkg/b/file.go:1.1,2.2 4 4";
            "github.com/junbin-yang/go-kitbox/pkg/a/file.go:1.1,2.2 5 1"]).
  apply perm_swap.
Defined.

(** ** The invariant of the aggregates *)

Lemma covered_bounded_empty : covered_bounded ∅.
Proof. intros pkg s H. by rewrite lookup_empty in H. Qed.

Lemma covered_bounded_entry pkg pkg_stats :
  covered_bounded pkg_stats -> covered (entry pkg pkg_stats) <= total (entry pkg pkg_stats).
Proof.
  intros H. unfold entry. destruct (pkg_stats !! pkg) as [s|] eqn:E; simpl; [eauto|lia].
Qed.

Lemma covered_bounded_step root line pkg_stats pkg_stats' :
  well_formed root line = true ->
  covered_bounded pkg_stats ->
  process_line root pkg_stats line = Ok pkg_stats' ->
  covered_bounded pkg_stats'.
Proof.
  unfold well_formed. rewrite process_line_effect.
  destruct (line_effect root line) as [|e|k n c]; simpl; intros Hwf Hinv [= <-]; [done|].
  intros pkg s. destruct (decide (k = pkg)) as [->|Hne].
  - rewrite lookup_insert_eq. intros [= <-].
    pose proof (covered_bounded_entry pkg _ Hinv). apply Z.leb_le in Hwf.
    unfold bump. simpl. destruct (0 <? c); lia.
  - rewrite lookup_insert_ne by done. apply Hinv.
Qed.

Lemma covered_bounded_read_lines root lines :
  Forall (fun line => well_formed root line = true) lines ->
  forall pkg_stats pkg_stats',
    covered_bounded pkg_stats ->
    read_lines root pkg_stats lines = Ok pkg_stats' ->
    covered_bounded pkg_stats'.
Proof.
  induction 1 as [|line lines Hwf _ IH]; simpl; intros m m' Hinv.
  - by intros [= <-].
  - destruct (process_line root m line) as [m1|e] eqn:E; simpl; [|discriminate].
    apply IH. eauto using covered_bounded_step.
Qed.

(** C2, as the script has it. When every record that the file folds has a
    statement count that is not negative, every aggregate left by the loop
    has [covered <= total], in whatever order the lines come. *)
Theorem covered_le_total root lines lines' pkg_stats pkg s :
  Forall (fun line => well_formed root line = true) lines ->
  Permutation lines lines' ->
  read_lines root ∅ lines' = Ok pkg_stats ->
  pkg_stats !! pkg = Some s ->
  covered s <= total s.
Proof.
  intros Hwf HP Hrun. rewrite <- (read_lines_Permutation _ _ _ HP) in Hrun.
  exact (covered_bounded_read_lines root lines Hwf ∅ pkg_stats
           covered_bounded_empty Hrun pkg s).
Qed.

Lemma covered_le_total_witness : (5 <= 15).
Proof.
  apply (covered_le_total repo_root
           ["github.com/junbin-yang/go-kitbox/pkg/a/file.go:1.1,2.2 5 1";
            "github.com/junbin-yang/go-kitbox/pkg/a/file2.go:3.1,4.2 10 0"]
           ["github.com/junbin-yang/go-kitbox/pkg/a/file2.go:3.1,4.2 10 0";
            "github.com/junbin-yang/go-kitbox/pkg/a/file.go:1.1,2.2 5 1"]
           {["github.com/junbin-yang/go-kitbox/pkg/a" := {| total := 15; covered := 5 |}]}
           "github.com/junbin-yang/go-kitbox/pkg/a"
           {| total := 15; covered := 5 |}).
  - repeat constructor.
  - apply perm_swap.
  - vm_compute. reflexivity.
  - reflexivity.
Defined.

(** C2, as stated, fails: the script accepts a negative statement count, and
    a record with one and an execution count of 0 leaves an aggregate whose
    [covered] is above its [total]. *)
Lemma negative_statement_count_breaks_bound :
  exists pkg_stats s,
    read_lines repo_root ∅
      ["github.com/junbin-yang/go-kitbox/pkg/a/file.go:1.1,2.2 -5 0"] = Ok pkg_stats /\
    pkg_stats !! "github.com/junbin-yang/go-kitbox/pkg/a" = Some s /\
    ~ covered s <= total s.
Proof.
  exists {["github.com/junbin-yang/go-kitbox/pkg/a" := {| total := -5; covered := 0 |}]},
         {| total := -5; covered := 0 |}.
  split; [vm_compute; reflexivity|]. split; [reflexivity|]. simpl. lia.
Qed.

(** ** The report *)

Lemma insert_sorted_Permutation {A} (lt : A -> A -> bool) x l :
  Permutation (insert_sorted lt x l) (x :: l).
Proof.
  induction l as [|y l IH]; simpl; [reflexivity|].
  destruct (lt y x); [|reflexivity].
  rewrite IH. apply perm_swap.
Qed.

Lemma sort_Permutation {A} (lt : A -> A -> bool) l : Permutation (sort lt l) l.
Proof.
  induction l as [|x l IH]; simpl; [reflexivity|].
  rewrite insert_sorted_Permutation. by constructor.
Qed.

Lemma In_sort {A} (lt : A -> A -> bool) l x : In x (sort lt l) <-> In x l.
Proof.
  split; apply Permutation_in; [|symmetry]; apply sort_Permutation.
Qed.

Lemma sort_length {A} (lt : A -> A -> bool) l : length (sort lt l) = length l.
Proof. apply Permutation_length, sort_Permutation. Qed.

Lemma In_sorted_items pkg_stats pkg s :
  In (pkg, s) (sorted_items pkg_stats) <-> pkg_stats !! pkg = Some s.
Proof.
  unfold sorted_items. rewrite In_sort, <- list_elem_of_In.
  apply elem_of_map_to_list.
Qed.

Lemma make_row_Some item r : make_row item = Ok (Some r) -> row_of item r.
Proof.
  destruct item as [pkg s]. unfold make_row, row_of.
  destruct (0 <? total s) eqn:Hpos; [|discriminate].
  destruct (true_div (covered s) (total s)) as [q|e] eqn:E; simpl; [|discriminate].
  intros [= <-]. simpl. apply Z.ltb_lt in Hpos.
  repeat (split; [done|]). exists q. done.
Qed.

Lemma build_results_In items : forall results r,
  build_results items = Ok results -> In r results ->
  exists item, In item items /\ row_of item r.
Proof.
  induction items as [|item items IH]; simpl; intros results r.
  - intros [= <-] [].
  - destruct (make_row item) as [o|e] eqn:E; simpl; [|discriminate].
    destruct (build_results items) as [rs|e]; simpl; [|discriminate].
    intros [= <-] Hin.
    destruct o as [x|]; [destruct Hin as [->|Hin]|].
    + exists item. split; [by left|]. by apply make_row_Some.
    + destruct (IH rs r eq_refl Hin) as (it & ? & ?). exists it. split; [by right|done].
    + destruct (IH rs r eq_refl Hin) as (it & ? & ?). exists it. split; [by right|done].
Qed.

Lemma results_rows pkg_stats results r :
  build_results (sorted_items pkg_stats) = Ok results ->
  In r (sort_results results) ->
  exists s, pkg_stats !! row_pkg r = Some s /\ row_of (row_pkg r, s) r.
Proof.
  intros Hb Hin. apply In_sort in Hin.
  destruct (build_results_In _ _ _ Hb Hin) as ([pkg s] & Hitem & Hrow).
  apply In_sorted_items in Hitem.
  assert (row_pkg r = pkg) as <- by apply Hrow.
  exists s. split; [exact Hitem | exact Hrow].
Qed.

Lemma status_of_cases x :
  (status_of x = "Good" <-> ge_int x 75 = true) /\
  (status_of x = "Needs Work" <-> ge_int x 75 = false).
Proof. unfold status_of. destruct (ge_int x 75); split; split; congruence. Qed.

(** C5. Every row of the report is labelled ["Good"] exactly when its
    percentage is [>= 75], and ["Needs Work"] otherwise; a percentage of
    exactly 75.0 is labelled ["Good"]. *)
Theorem status_label_threshold pkg_stats results r :
  build_results (sorted_items pkg_stats) = Ok results ->
  In r (sort_results results) ->
  (row_status r = "Good" <-> ge_int (row_coverage r) 75 = true) /\
  (row_status r = "Needs Work" <-> ge_int (row_coverage r) 75 = false) /\
  (row_coverage r = of_int 75 -> row_status r = "Good").
Proof.
  intros Hb Hin. destruct (results_rows _ _ _ Hb Hin) as (s & _ & Hrow).
  destruct Hrow as (_ & _ & _ & _ & -> & _).
  destruct (status_of_cases (row_coverage r)) as [H1 H2].
  split; [exact H1|]. split; [exact H2|].
  intros ->. reflexivity.
Qed.

Lemma status_label_threshold_witness :
  let r := {| row_pkg := "github.com/junbin-yang/go-kitbox/pkg/c";
              row_coverage := of_int 75; row_status := "Good";
              row_total := 4; row_covered := 3 |} in
  (row_status r = "Good" <-> ge_int (row_coverage r) 75 = true) /\
  (row_status r = "Needs Work" <-> ge_int (row_coverage r) 75 = false) /\
  (row_coverage r = of_int 75 -> row_status r = "Good").
Proof.
  intros r.
  apply (status_label_threshold
           {["github.com/junbin-yang/go-kitbox/pkg/c" := {| total := 4; covered := 3 |}]}
           [r] r).
  - vm_compute. reflexivity.
  - left. reflexivity.
Defined.

Lemma print_improvements_None results :
  (print_improvements results).2 = None ->
  (print_improvements results).1 = improvement_line <$> improvement_rows results.
Proof.
  induction results as [|r results IH]; simpl; [done|].
  destruct (needs_improvement r); [|exact IH].
  destruct (exceeds_limit (missing r)); [discriminate|]. simpl.
  intros H. by rewrite IH.
Qed.

(** The shape of the output of a run that ends without an exception. *)
Lemma main_with_success root lines :
  raised (main_with root lines) = None ->
  exists pkg_stats results v,
    read_lines root ∅ lines = Ok pkg_stats /\
    build_results (sorted_items pkg_stats) = Ok results /\
    overall_coverage pkg_stats = Ok v /\
    stdout (main_with root lines) =
      (header ++ (row_line <$> sort_results results)
         ++ [divider; overall_line v; ""; improvement_title; divider]
         ++ (improvement_line <$> improvement_rows (sort_results results)))%list.
Proof.
  unfold main_with.
  destruct (read_lines root ∅ lines) as [m|e] eqn:Hread; [|discriminate].
  destruct (build_results (sorted_items m)) as [rs|e] eqn:Hrows; [|discriminate].
  destruct (overall_coverage m) as [v|e] eqn:Hv; [|discriminate].
  cbn [raised stdout]. intros Hnone. exists m, rs, v. do 3 (split; [done|]).
  rewrite (print_improvements_None _ Hnone), <- !app_assoc. reflexivity.
Qed.

Lemma overall_coverage_cases pkg_stats v :
  overall_coverage pkg_stats = Ok v ->
  (0 < overall_total pkg_stats ->
   exists q, true_div (overall_covered pkg_stats) (overall_total pkg_stats) = Ok q /\
             v = Float (mul_int q 100)) /\
  (overall_total pkg_stats <= 0 -> v = Int 0).
Proof.
  unfold overall_coverage. destruct (0 <? overall_total pkg_stats) eqn:Hpos.
  - apply Z.ltb_lt in Hpos.
    destruct (true_div _ _) as [q|e]; simpl; [|discriminate].
    intros [= <-]. split; [eauto|lia].
  - apply Z.ltb_ge in Hpos. intros [= <-]. split; [lia|reflexivity].
Qed.

Lemma overall_total_empty : overall_total ∅ = 0.
Proof. unfold overall_total, values. by rewrite map_to_list_empty. Qed.

Lemma build_results_complete items : forall results item,
  build_results items = Ok results -> In item items -> 0 < total item.2 ->
  exists r, In r results /\ row_of item r.
Proof.
  induction items as [|it items IH]; simpl; intros results item; [by intros _ []|].
  destruct (make_row it) as [o|e] eqn:E; simpl; [|discriminate].
  destruct (build_results items) as [rs|e]; simpl; [|discriminate].
  intros [= <-] [->|Hin] Hpos.
  - destruct o as [x|].
    + exists x. split; [by left|]. by apply make_row_Some.
    + exfalso. destruct item as [pkg s]. unfold make_row in E. simpl in Hpos.
      apply Z.ltb_lt in Hpos. rewrite Hpos in E.
      destruct (true_div _ _); discriminate.
  - destruct (IH rs item eq_refl Hin Hpos) as (r & ? & ?).
    exists r. split; [|done]. destruct o; [by right|done].
Qed.

(** ** The order in which the dictionary is enumerated does not matter

    [pkg_stats.items()] and [pkg_stats.values()] come in insertion order,
    [map_to_list] in an order of its own. The script only sorts the items
    by their distinct keys and sums the values, and both results are the
    same for every enumeration. *)

Section SortDistinct.
Context {A : Type} (lt : A -> A -> bool).
Hypothesis lt_trans : forall x y z, lt x y = true -> lt y z = true -> lt x z = true.
Hypothesis lt_asym : forall x y, lt x y = true -> lt y x = false.

Lemma insert_sorted_comm_lt x y l :
  lt x y = true ->
  insert_sorted lt x (insert_sorted lt y l) = insert_sorted lt y (insert_sorted lt x l).
Proof using lt_trans lt_asym.
  intros Hxy. pose proof (lt_asym _ _ Hxy) as Hyx.
  induction l as [|z l IH]; simpl.
  - by rewrite Hyx, Hxy.
  - destruct (lt z y) eqn:Hzy, (lt z x) eqn:Hzx;
      repeat (simpl; rewrite ?Hzy, ?Hzx, ?Hxy, ?Hyx); try done.
    + by rewrite IH.
    + by rewrite (lt_trans _ _ _ Hzx Hxy) in Hzy.
Qed.

Lemma insert_sorted_comm x y l :
  x = y \/ lt x y = true \/ lt y x = true ->
  insert_sorted lt x (insert_sorted lt y l) = insert_sorted lt y (insert_sorted lt x l).
Proof using lt_trans lt_asym.
  intros [->|[H|H]]; [done| |symmetry]; by apply insert_sorted_comm_lt.
Qed.

(** Two enumerations of elements that are pairwise equal or ordered are
    sorted into the same list. *)
Lemma sort_Permutation_distinct l l' :
  Permutation l l' ->
  (forall x y, In x l -> In y l -> x = y \/ lt x y = true \/ lt y x = true) ->
  sort lt l = sort lt l'.
Proof using lt_trans lt_asym.
  induction 1 as [|x l l' HP IH|x y l|l l' l'' HP1 IH1 HP2 IH2]; intros Hd.
  - reflexivity.
  - simpl. rewrite IH; [done|]. intros a b Ha Hb. apply Hd; by right.
  - simpl. apply insert_sorted_comm. apply Hd; simpl; tauto.
  - rewrite IH1 by done. apply IH2.
    intros a b Ha Hb. apply Hd; eapply Permutation_in; try eassumption;
      by symmetry.
Qed.
End SortDistinct.

Lemma string_compare_Lt_trans s1 : forall s2 s3,
  String.compare s1 s2 = Lt -> String.compare s2 s3 = Lt -> String.compare s1 s3 = Lt.
Proof.
  induction s1 as [|a s1 IH]; intros [|b s2] [|c s3]; simpl; try done.
  destruct (Ascii.compare a b) eqn:Eab; [|intros _|done].
  - apply Ascii.compare_eq_iff in Eab as ->.
    destruct (Ascii.compare b c); [apply IH|done|done].
  - destruct (Ascii.compare b c) eqn:Ebc; [|intros _|done].
    + apply Ascii.compare_eq_iff in Ebc as <-. by rewrite Eab.
    + unfold Ascii.compare in *. rewrite N.compare_lt_iff in Eab, Ebc.
      assert ((N_of_ascii a ?= N_of_ascii c)%N = Lt) as -> by (apply N.compare_lt_iff; lia).
      done.
Qed.

Lemma string_ltb_trans x y z :
  String.ltb x y = true -> String.ltb y z = true -> String.ltb x z = true.
Proof.
  unfold String.ltb.
  destruct (String.compare x y) eqn:Exy; try done.
  destruct (String.compare y z) eqn:Eyz; try done.
  by rewrite (string_compare_Lt_trans _ _ _ Exy Eyz).
Qed.

Lemma string_ltb_asym x y : String.ltb x y = true -> String.ltb y x = false.
Proof.
  unfold String.ltb. rewrite (String.compare_antisym x y).
  by destruct (String.compare y x).
Qed.

Lemma string_ltb_total x y : x = y \/ String.ltb x y = true \/ String.ltb y x = true.
Proof.
  unfold String.ltb. rewrite (String.compare_antisym x y).
  destruct (String.compare y x) eqn:E; simpl; auto.
  apply String.compare_eq_iff in E. auto.
Qed.

Lemma sorted_items_any_order (pkg_stats : gmap string stats) items :
  Permutation items (map_to_list pkg_stats) ->
  sort (fun a b => String.ltb a.1 b.1) items = sorted_items pkg_stats.
Proof.
  intros HP. unfold sorted_items. apply sort_Permutation_distinct; [| |done|].
  - intros x y z. apply string_ltb_trans.
  - intros x y. apply string_ltb_asym.
  - intros [k1 s1] [k2 s2] H1 H2. simpl.
    apply (Permutation_in _ HP), list_elem_of_In, elem_of_map_to_list in H1.
    apply (Permutation_in _ HP), list_elem_of_In, elem_of_map_to_list in H2.
    destruct (string_ltb_total k1 k2) as [->|H]; [left; congruence|by right].
Qed.

Lemma sum_from l : forall a, fold_left Z.add l a = a + sum l.
Proof.
  unfold sum. induction l as [|x l IH]; intros a; simpl; [lia|].
  rewrite (IH (a + x)), (IH (0 + x)). lia.
Qed.

Lemma sum_cons x l : sum (x :: l) = x + sum l.
Proof. unfold sum at 1. simpl. apply sum_from. Qed.

Lemma sum_Permutation l l' : Permutation l l' -> sum l = sum l'.
Proof.
  induction 1 as [|x l l' _ IH|x y l|l l' l'' _ IH1 _ IH2].
  - reflexivity.
  - by rewrite !sum_cons, IH.
  - rewrite !sum_cons. lia.
  - by rewrite IH1.
Qed.

Lemma overall_sums_any_order (pkg_stats : gmap string stats) items :
  Permutation items (map_to_list pkg_stats) ->
  sum (total <$> items.*2) = overall_total pkg_stats /\
  sum (covered <$> items.*2) = overall_covered pkg_stats.
Proof.
  intros HP. unfold overall_total, overall_covered, values.
  split; apply sum_Permutation; by rewrite HP.
Qed.

Lemma overall_sums_insert (pkg_stats : gmap string stats) pkg s :
  pkg_stats !! pkg = None ->
  overall_total (<[pkg := s]> pkg_stats) = total s + overall_total pkg_stats /\
  overall_covered (<[pkg := s]> pkg_stats) = covered s + overall_covered pkg_stats.
Proof.
  intros Hfresh. unfold overall_total, overall_covered, values.
  pose proof (map_to_list_insert pkg_stats pkg s Hfresh) as HP.
  split.
  - rewrite (sum_Permutation _ (total <$> ((pkg, s) :: map_to_list pkg_stats).*2))
      by (by rewrite HP).
    apply sum_cons.
  - rewrite (sum_Permutation _ (covered <$> ((pkg, s) :: map_to_list pkg_stats).*2))
      by (by rewrite HP).
    apply sum_cons.
Qed.

Lemma sum_fold_right l : sum l = fold_right Z.add 0 l.
Proof. induction l as [|x l IH]; [done|]. rewrite sum_cons, IH. reflexivity. Qed.

(** C4. In a run that ends without an exception, the line printed after
    the divider of the first table is the overall line. For every
    enumeration of the aggregates, with [sum_total] and [sum_covered] the
    sums of their [total] and [covered], it shows
    [sum_covered / sum_total * 100] when [sum_total] is positive, and the
    integer 0, printed as [0.0], otherwise, as it is when there is no
    aggregate. *)
Theorem overall_percentage root lines :
  raised (main_with root lines) = None ->
  exists pkg_stats results v rest,
    read_lines root ∅ lines = Ok pkg_stats /\
    stdout (main_with root lines) =
      (header ++ (row_line <$> results) ++ [divider; overall_line v] ++ rest)%list /\
    overall_line v = ljust 50 "Overall" ++ " " ++ rjust 9 (format_number_1f v) ++ "%" /\
    (forall aggregates : list (string * stats),
       aggregates ≡ₚ map_to_list pkg_stats ->
       let sum_total := fold_right Z.add 0 ((fun a => total a.2) <$> aggregates) in
       let sum_covered := fold_right Z.add 0 ((fun a => covered a.2) <$> aggregates) in
       (0 < sum_total ->
        exists q, true_div sum_covered sum_total = Ok q /\ v = Float (mul_int q 100)) /\
       (sum_total <= 0 -> v = Int 0)) /\
    (pkg_stats = ∅ -> v = Int 0) /\
    format_number_1f (Int 0) = "0.0".
Proof.
  intros Hrun.
  destruct (main_with_success _ _ Hrun) as (m & rs & v & Hread & _ & Hv & Hout).
  destruct (overall_coverage_cases _ _ Hv) as [Hpos Hzero].
  exists m, (sort_results rs), v,
    (["" ; improvement_title; divider]
       ++ (improvement_line <$> improvement_rows (sort_results rs)))%list.
  split; [exact Hread|]. split; [exact Hout|]. split; [reflexivity|].
  split; [|split; [|reflexivity]].
  - intros aggregates HP sum_total sum_covered.
    destruct (overall_sums_any_order m aggregates HP) as [Ht Hc].
    assert (sum_total = overall_total m) as ->
      by (subst sum_total; rewrite <- Ht, sum_fold_right, <- list_fmap_compose; done).
    assert (sum_covered = overall_covered m) as ->
      by (subst sum_covered; rewrite <- Hc, sum_fold_right, <- list_fmap_compose; done).
    split; [exact Hpos | exact Hzero].
  - intros ->. apply Hzero. rewrite overall_total_empty. lia.
Qed.

Lemma overall_percentage_witness :
  exists q,
    true_div 9 19 = Ok q /\
    In (overall_line (Float (mul_int q 100)))
       (stdout (main ["github.com/junbin-yang/go-kitbox/pkg/a/file.go:1.1,2.2 5 1";
                      "github.com/junbin-yang/go-kitbox/pkg/a/file2.go:3.1,4.2 10 0";
                      "github.com/junbin-yang/go-kitbox/pkg/b/file.go:1.1,2.2 4 4"])).
Proof.
  destruct (overall_percentage repo_root
              ["github.com/junbin-yang/go-kitbox/pkg/a/file.go:1.1,2.2 5 1";
               "github.com/junbin-yang/go-kitbox/pkg/a/file2.go:3.1,4.2 10 0";
               "github.com/junbin-yang/go-kitbox/pkg/b/file.go:1.1,2.2 4 4"])
    as (m & rs & v & rest & Hread & Hout & _ & Hsum & _).
  - vm_compute. reflexivity.
  - assert (read_lines repo_root ∅
              ["github.com/junbin-yang/go-kitbox/pkg/a/file.go:1.1,2.2 5 1";
               "github.com/junbin-yang/go-kitbox/pkg/a/file2.go:3.1,4.2 10 0";
               "github.com/junbin-yang/go-kitbox/pkg/b/file.go:1.1,2.2 4 4"] =
            Ok {["github.com/junbin-yang/go-kitbox/pkg/a" := {| total := 15; covered := 5 |};
                 "github.com/junbin-yang/go-kitbox/pkg/b" := {| total := 4; covered := 4 |}]})
      as E by (vm_compute; reflexivity).
    rewrite E in Hread. injection Hread as <-.
    destruct (Hsum (map_to_list _) (Permutation_refl _)) as [Hpos _].
    destruct Hpos as (q & Hq & ->); [vm_compute; reflexivity|].
    exists q. split; [exact Hq|]. unfold main. rewrite Hout.
    apply in_or_app. right. apply in_or_app. right. right. left. reflexivity.
Defined.

(** ** The floats of the report are numbers *)

Lemma shr_1_nonneg mrs : 0 <= shr_m mrs -> 0 <= shr_m (shr_1 mrs).
Proof.
  destruct mrs as [m r s]. simpl.
  destruct m as [|p|p]; [| destruct p | lia]; simpl; lia.
Qed.

Lemma iter_pos_shr_1_nonneg p : forall mrs,
  0 <= shr_m mrs -> 0 <= shr_m (SpecFloat.iter_pos shr_1 p mrs).
Proof.
  induction p as [p IH|p IH|]; intros mrs H; simpl;
    auto using shr_1_nonneg.
Qed.

Lemma shr_nonneg mrs e n : 0 <= shr_m mrs -> 0 <= shr_m (fst (shr mrs e n)).
Proof.
  intros H. unfold shr. destruct n; simpl; auto using iter_pos_shr_1_nonneg.
Qed.

Lemma shr_fexp_nonneg prec emax m e l :
  0 <= m -> 0 <= shr_m (fst (shr_fexp prec emax m e l)).
Proof.
  intros H. unfold shr_fexp. apply shr_nonneg.
  destruct l as [|[]]; exact H.
Qed.

Lemma round_nearest_even_nonneg m l : 0 <= m -> 0 <= round_nearest_even m l.
Proof.
  intros H. unfold round_nearest_even.
  destruct l as [|[]]; try destruct (Z.even m); lia.
Qed.

Lemma binary_round_aux_not_nan prec emax s m e l :
  0 <= m -> binary_round_aux prec emax s m e l <> S754_nan.
Proof.
  intros H. unfold binary_round_aux.
  pose proof (shr_fexp_nonneg prec emax m e l H) as H1.
  destruct (shr_fexp prec emax m e l) as [mrs' e']. simpl in H1.
  pose proof (shr_fexp_nonneg prec emax _ e' loc_Exact
                (round_nearest_even_nonneg _ (loc_of_shr_record mrs') H1)) as H2.
  destruct (shr_fexp prec emax _ e' loc_Exact) as [mrs'' e'']. simpl in H2.
  destruct (shr_m mrs'') as [|p|p]; [discriminate| |lia].
  destruct (e'' <=? emax - prec); discriminate.
Qed.

Lemma SFcompare_antisym x y :
  SFcompare y x = CompOpp <$> SFcompare x y.
Proof.
  destruct x as [sx|sx| |sx mx ex], y as [sy|sy| |sy my ey]; simpl;
    try reflexivity; try (destruct sx; reflexivity); try (destruct sy; reflexivity);
    try (destruct sx, sy; reflexivity).
  destruct sx, sy; simpl; try reflexivity;
    rewrite (Z.compare_antisym ex ey); destruct (ex ?= ey); simpl; try reflexivity;
    rewrite (Pos.compare_cont_antisym); simpl; try rewrite CompOpp_involutive; reflexivity.
Qed.

Lemma SFdiv_core_binary_nonneg m1 e1 m2 e2 :
  0 <= m1 -> 0 < m2 ->
  0 <= (SFdiv_core_binary prec emax m1 e1 m2 e2).1.1.
Proof.
  intros H1 H2. unfold SFdiv_core_binary.
  set (m' := match _ with Z0 => m1 | Zpos _ => _ | Zneg _ => 0 end).
  assert (0 <= m') as Hm'.
  { subst m'. destruct (_ - _ - _); [done| |done]. by apply Z.shiftl_nonneg. }
  pose proof (Z.div_pos m' m2 Hm' H2) as Hq. unfold Z.div in Hq.
  destruct (Z.div_eucl m' m2) as [q r]. exact Hq.
Qed.

Lemma SFdiv_exact_not_nan a b :
  b <> 0 -> SFdiv prec emax (exact a) (exact b) <> S754_nan.
Proof.
  intros Hb. destruct b as [|pb|pb]; [done| |];
    (destruct a as [|pa|pa]; simpl; [discriminate| |]);
    match goal with
    | |- context [SFdiv_core_binary ?p ?e ?m1 ?e1 ?m2 ?e2] =>
        pose proof (SFdiv_core_binary_nonneg m1 e1 m2 e2 ltac:(lia) ltac:(lia)) as H;
        destruct (SFdiv_core_binary p e m1 e1 m2 e2) as [[mz ez] lz]; simpl in H;
        by apply binary_round_aux_not_nan
    end.
Qed.

Lemma true_div_number a b q :
  true_div a b = Ok q -> q <> S754_nan /\ forall s, q <> S754_infinity s.
Proof.
  unfold true_div. destruct (b =? 0) eqn:Hb; [discriminate|].
  apply Z.eqb_neq in Hb. pose proof (SFdiv_exact_not_nan a b Hb) as Hnan.
  destruct (SFdiv prec emax (exact a) (exact b)); try discriminate;
    intros [= <-]; split; congruence.
Qed.

Lemma of_int_positive_finite n :
  n = 75 \/ n = 100 -> exists m e, of_int n = S754_finite false m e.
Proof. intros [->| ->]; vm_compute; eauto. Qed.

Lemma mul_int_100_not_nan q :
  q <> S754_nan -> (forall s, q <> S754_infinity s) -> mul_int q 100 <> S754_nan.
Proof.
  intros Hnan Hinf. unfold mul_int.
  destruct (of_int_positive_finite 100) as (m100 & e100 & ->); [by right|].
  destruct q as [s|s| |s m e]; unfold SFmul; try discriminate; try congruence.
  by apply binary_round_aux_not_nan.
Qed.

Lemma row_coverage_not_nan item r : row_of item r -> row_coverage r <> S754_nan.
Proof.
  intros (_ & _ & _ & _ & _ & q & Hq & ->).
  destruct (true_div_number _ _ _ Hq). by apply mul_int_100_not_nan.
Qed.

Lemma lt_int_75_ge_int x :
  x <> S754_nan -> lt_int x 75 = negb (ge_int x 75).
Proof.
  intros Hx. unfold lt_int, ge_int, SFltb, SFleb.
  rewrite (SFcompare_antisym x (of_int 75)).
  destruct (of_int_positive_finite 75) as (m75 & e75 & ->); [by left|].
  destruct x as [s|s| |s m e]; [| |done|];
    destruct (SFcompare _ _) as [[]|] eqn:E; try reflexivity;
    unfold SFcompare in E; try discriminate; destruct s; discriminate.
Qed.

Lemma needs_improvement_status item r :
  row_of item r -> (needs_improvement r = true <-> row_status r = "Needs Work").
Proof.
  intros Hrow. unfold needs_improvement.
  rewrite (lt_int_75_ge_int _ (row_coverage_not_nan _ _ Hrow)).
  destruct Hrow as (_ & _ & _ & _ & -> & _). unfold status_of.
  destruct (ge_int (row_coverage r) 75); simpl; split; congruence.
Qed.

Lemma improvement_rows_In results r :
  In r (improvement_rows results) <->
  In r results /\ lt_int (row_coverage r) 75 = true.
Proof. unfold improvement_rows. apply filter_In. Qed.

(** C8. In a run that ends without an exception, the second table lists,
    in the order of the first, exactly the rows whose percentage is [< 75]
    (they are the rows labelled "Needs Work"), and the number it shows for
    a row is [total - covered] of the row's aggregate. That is the raw
    deficit: for an aggregate with 5 of 15 statements covered it is 10,
    where 7 more covered statements would reach 75%. *)
Theorem improvement_table root lines :
  raised (main_with root lines) = None ->
  exists pkg_stats results v,
    read_lines root ∅ lines = Ok pkg_stats /\
    stdout (main_with root lines) =
      (header ++ (row_line <$> results)
         ++ [divider; overall_line v; ""; improvement_title; divider]
         ++ (improvement_line <$> improvement_rows results))%list /\
    (forall pkg s, pkg_stats !! pkg = Some s -> 0 < total s ->
       exists r, In r results /\ row_pkg r = pkg) /\
    improvement_rows results =
      List.filter (fun r => lt_int (row_coverage r) 75) results /\
    (forall r, In r (improvement_rows results) <->
               In r results /\ lt_int (row_coverage r) 75 = true) /\
    (forall r, In r results ->
       exists s, pkg_stats !! row_pkg r = Some s /\
         missing r = total s - covered s /\
         improvement_line r =
           ljust 30 (pkg_name (row_pkg r)) ++ " "
             ++ rjust 6 (format_1f (row_coverage r)) ++ "%  (need "
             ++ rjust 4 (str_of_Z (total s - covered s)) ++ " more statements)") /\
    (forall r, In r results ->
       (In r (improvement_rows results) <-> row_status r = "Needs Work")) /\
    (15 - 5 = 10 /\ required_for_threshold 15 5 = 7).
Proof.
  intros Hrun.
  destruct (main_with_success _ _ Hrun) as (m & rs & v & Hread & Hrows & _ & Hout).
  exists m, (sort_results rs), v.
  split; [exact Hread|]. split; [exact Hout|].
  split; [|split; [reflexivity|split; [apply improvement_rows_In|split; [|split]]]].
  - intros pkg s Hs Hpos. apply In_sorted_items in Hs.
    destruct (build_results_complete _ _ _ Hrows Hs Hpos) as (r & Hin & Hrow).
    exists r. split; [by apply In_sort|apply Hrow].
  - intros r Hin. destruct (results_rows _ _ _ Hrows Hin) as (s & Hs & Hrow).
    destruct Hrow as (_ & _ & Ht & Hc & _). simpl in Ht, Hc.
    exists s. split; [exact Hs|]. unfold improvement_line, missing.
    rewrite Ht, Hc. split; reflexivity.
  - intros r Hin. destruct (results_rows _ _ _ Hrows Hin) as (s & _ & Hrow).
    rewrite improvement_rows_In, <- (needs_improvement_status _ _ Hrow).
    unfold needs_improvement. tauto.
  - split; reflexivity.
Qed.

Lemma improvement_table_witness :
  exists pkg_stats results v,
    read_lines repo_root ∅
      ["github.com/junbin-yang/go-kitbox/pkg/a/file.go:1.1,2.2 5 1";
       "github.com/junbin-yang/go-kitbox/pkg/a/file2.go:3.1,4.2 10 0"] = Ok pkg_stats /\
    stdout (main ["github.com/junbin-yang/go-kitbox/pkg/a/file.go:1.1,2.2 5 1";
                  "github.com/junbin-yang/go-kitbox/pkg/a/file2.go:3.1,4.2 10 0"]) =
      (header ++ (row_line <$> results)
         ++ [divider; overall_line v; ""; improvement_title; divider]
         ++ (improvement_line <$> improvement_rows results))%list.
Proof.
  destruct (improvement_table repo_root
              ["github.com/junbin-yang/go-kitbox/pkg/a/file.go:1.1,2.2 5 1";
               "github.com/junbin-yang/go-kitbox/pkg/a/file2.go:3.1,4.2 10 0"])
    as (m & rs & v & H1 & H2 & _).
  - reflexivity.
  - exists m, rs, v. split; [exact H1 | exact H2].
Defined.

(** C9. The example of the specification. With the pattern rooted at
    [pkg/], the three lines give package [a] 15 statements of which 5 are
    covered, shown as 33.3% and "Needs Work", package [b] 4 of 4, shown as
    100.0% and "Good", and 9 of 19 overall, shown as 47.4%. The script
    itself, whose pattern is rooted at [repo_root], prints the same for the
    three lines with that root before them, read from a file. *)
Theorem documented_example :
  let lines :=
    ["pkg/a/file.go:1.1,2.2 5 1"; "pkg/a/file2.go:3.1,4.2 10 0";
     "pkg/b/file.go:1.1,2.2 4 4"] in
  let rooted :=
    (fun line => repo_root ++ line ++ String (ascii_of_nat 10) "") <$>
    ["a/file.go:1.1,2.2 5 1"; "a/file2.go:3.1,4.2 10 0"; "b/file.go:1.1,2.2 4 4"] in
  let report :=
    [ "Coverage by Package:"; divider;
      "Package                                              Coverage          Status";
      divider;
      "a                                                       33.3%      Needs Work";
      "b                                                      100.0%            Good";
      divider;
      "Overall                                                 47.4%";
      ""; improvement_title; divider;
      "a                                33.3%  (need   10 more statements)" ] in
  read_lines "pkg/" ∅ lines =
    Ok {[ "pkg/a" := {| total := 15; covered := 5 |};
          "pkg/b" := {| total := 4; covered := 4 |} ]} /\
  (exists pkg_stats,
     read_lines "pkg/" ∅ lines = Ok pkg_stats /\
     overall_total pkg_stats = 19 /\ overall_covered pkg_stats = 9) /\
  main_with "pkg/" lines = {| stdout := report; raised := None |} /\
  read_lines repo_root ∅ rooted =
    Ok {[ repo_root ++ "a" := {| total := 15; covered := 5 |};
          repo_root ++ "b" := {| total := 4; covered := 4 |} ]} /\
  main rooted = {| stdout := report; raised := None |}.
Proof.
  repeat split; try (vm_compute; reflexivity).
  eexists. split; [vm_compute; reflexivity|]. split; vm_compute; reflexivity.
Qed.

(** The script itself drops the three lines as they are written in the
    example, since their paths do not start with [repo_root]. *)
Example unrooted_lines_are_dropped :
  read_lines repo_root ∅
    ["pkg/a/file.go:1.1,2.2 5 1"; "pkg/a/file2.go:3.1,4.2 10 0";
     "pkg/b/file.go:1.1,2.2 4 4"] = Ok ∅.
Proof. vm_compute. reflexivity. Qed.


(** * Further properties of the script *)

(** ** What the loop computes *)

Lemma read_lines_entry root pkg lines : forall pkg_stats pkg_stats',
  read_lines root pkg_stats lines = Ok pkg_stats' ->
  total (entry pkg pkg_stats') =
    total (entry pkg pkg_stats) + sum (line_statements root pkg <$> lines) /\
  covered (entry pkg pkg_stats') =
    covered (entry pkg pkg_stats) + sum (line_covered root pkg <$> lines) /\
  (is_Some (pkg_stats' !! pkg) <->
   is_Some (pkg_stats !! pkg) \/ Exists (fun line => folds_into root pkg line = true) lines).
Proof.
  induction lines as [|line lines IH]; intros m m'; cbn [read_lines].
  - intros [= <-]. unfold sum. simpl. split; [lia|]. split; [lia|].
    rewrite Exists_nil. tauto.
  - rewrite process_line_effect, !fmap_cons, !sum_cons, Exists_cons.
    assert (line_statements root pkg line =
              match line_effect root line with
              | Folded p n _ => if String.eqb p pkg then n else 0
              | _ => 0
              end) as -> by reflexivity.
    assert (line_covered root pkg line =
              match line_effect root line with
              | Folded p n c => if String.eqb p pkg && (0 <? c) then n else 0
              | _ => 0
              end) as -> by reflexivity.
    assert (folds_into root pkg line =
              match line_effect root line with
              | Folded p _ _ => String.eqb p pkg
              | _ => false
              end) as -> by reflexivity.
    destruct (line_effect root line) as [|e|k n c]; cbn [apply_effect bind];
      [|discriminate|].
    + intros H. destruct (IH _ _ H) as (-> & -> & ->).
      split; [lia|]. split; [lia|]. intuition congruence.
    + intros H. destruct (IH _ _ H) as (-> & -> & ->).
      destruct (String.eqb_spec k pkg) as [->|Hne]; cbn [andb].
      * rewrite entry_insert_eq, lookup_insert_eq. unfold bump. cbn [total covered].
        split; [lia|]. split; [destruct (0 <? c); lia|].
        split; [by auto|]. intros _. left. eauto.
      * rewrite entry_insert_ne, lookup_insert_ne by done.
        split; [lia|]. split; [lia|]. intuition congruence.
Qed.

(** X1. When the loop ends without an exception, the entry of a package
    holds the sums over the records of that package in the file: [total] is
    the sum of their statement counts, [covered] the sum of the statement
    counts of those executed at least once, and the package has an entry
    exactly when the file has a record of it. *)
Theorem aggregates_are_grouped_sums root lines pkg_stats pkg :
  read_lines root ∅ lines = Ok pkg_stats ->
  total (entry pkg pkg_stats) = sum (line_statements root pkg <$> lines) /\
  covered (entry pkg pkg_stats) = sum (line_covered root pkg <$> lines) /\
  (is_Some (pkg_stats !! pkg) <->
   Exists (fun line => folds_into root pkg line = true) lines).
Proof.
  intros H. destruct (read_lines_entry root pkg lines _ _ H) as (Ht & Hc & Hk).
  split; [exact Ht|]. split; [exact Hc|].
  rewrite Hk, lookup_empty. split; [intros [[? [=]]|]|]; auto.
Qed.

Lemma aggregates_are_grouped_sums_witness :
  total (entry "github.com/junbin-yang/go-kitbox/pkg/a"
           {["github.com/junbin-yang/go-kitbox/pkg/a" := {| total := 15; covered := 5 |}]})
  = sum (line_statements repo_root "github.com/junbin-yang/go-kitbox/pkg/a" <$>
           ["github.com/junbin-yang/go-kitbox/pkg/a/file.go:1.1,2.2 5 1";
            "example.com/other/x.go:1.1,2.2 7 1";
            "github.com/junbin-yang/go-kitbox/pkg/a/file2.go:3.1,4.2 10 0"]).
Proof.
  apply (aggregates_are_grouped_sums repo_root
           ["github.com/junbin-yang/go-kitbox/pkg/a/file.go:1.1,2.2 5 1";
            "example.com/other/x.go:1.1,2.2 7 1";
            "github.com/junbin-yang/go-kitbox/pkg/a/file2.go:3.1,4.2 10 0"]).
  vm_compute. reflexivity.
Defined.

Lemma read_lines_outcome root lines : forall pkg_stats,
  (read_lines root pkg_stats lines = Raise ValueError <->
   Exists (fun line => raises root line = true) lines) /\
  ((exists pkg_stats', read_lines root pkg_stats lines = Ok pkg_stats') <->
   Forall (fun line => raises root line = false) lines).
Proof.
  induction lines as [|line lines IH]; intros m; simpl.
  - rewrite Exists_nil. split; [split; [discriminate|tauto]|].
    split; [constructor|eauto].
  - rewrite process_line_effect, Exists_cons, Forall_cons. unfold raises.
    pose proof (line_effect_raises root line) as He.
    destruct (line_effect root line) as [|e|k n c]; simpl.
    + destruct (IH m) as [-> ->]. intuition congruence.
    + rewrite (He e eq_refl). split; [tauto|].
      split; [intros [? [=]]|intros [[=] _]].
    + destruct (IH (<[k:=bump n c (entry k m)]> m)) as [-> ->]. intuition congruence.
Qed.

(** X2. The [with] block ends with aggregates exactly when [open]
    succeeds, the iteration reaches the end of the file and no line fails a
    conversion. Otherwise it raises: [OSError] when [open] fails;
    [ValueError] when a line that the file yields fails a conversion,
    wherever that line stands; and what stopped the iteration when no line
    it yielded fails. *)
Theorem read_fails_iff_some_line_raises root f :
  ((exists pkg_stats, read_file root f = Ok pkg_stats) <->
   exists lines,
     f = Opened lines EndOfFile /\
     Forall (fun line => raises root line = false) lines) /\
  (f = Unopened -> read_file root f = Raise OSError) /\
  (forall lines stop, f = Opened lines stop ->
     (Exists (fun line => raises root line = true) lines ->
      read_file root f = Raise ValueError) /\
     (Forall (fun line => raises root line = false) lines ->
      forall e, ending_exn stop = Some e -> read_file root f = Raise e)).
Proof.
  split; [|split].
  - destruct f as [|lines stop]; simpl.
    + split; [intros [? [=]]|intros (? & [=] & _)].
    + destruct (read_lines_outcome root lines ∅) as [_ Hok].
      split.
      * intros [m Hm]. destruct (read_lines root ∅ lines) as [m'|e] eqn:Hr; [|done].
        simpl in Hm. destruct stop; simpl in Hm; try done.
        exists lines. split; [done|]. apply Hok. eauto.
      * intros (lines' & [= <- ->] & Hall). apply Hok in Hall as [m ->]. simpl. eauto.
  - by intros ->.
  - intros lines stop ->. simpl.
    destruct (read_lines_outcome root lines ∅) as [Hv Hok]. split.
    + intros Hex. apply Hv in Hex as ->. reflexivity.
    + intros Hall e He. apply Hok in Hall as [m ->]. simpl. by rewrite He.
Qed.

Lemma int_cases s : (exists n, int s = Ok n) \/ int s = Raise ValueError.
Proof. unfold int. destruct (literal _); [destruct (_ <? _)%N|]; eauto. Qed.

(** X3. A line fails a conversion exactly when it does not start with
    [mode:], has at least three fields, and either its third field is not
    an integer literal or its path matches the pattern and its second field
    is not an integer literal. A second field that is not an integer is
    harmless on a line whose path does not match. *)
Theorem raises_iff_bad_integer root line :
  raises root line = true <->
  startswith "mode:" line = false /\
  exists p0 p1 p2 rest,
    split (strip line) = p0 :: p1 :: p2 :: rest /\
    (int p2 = Raise ValueError \/
     (is_Some (pkg_match root (first (split_on ":" p0))) /\ int p1 = Raise ValueError)).
Proof.
  unfold raises. split.
  - destruct (startswith "mode:" line) eqn:Hmode;
      [by rewrite (line_effect_mode _ _ Hmode)|].
    destruct (split (strip line)) as [|p0 [|p1 [|p2 rest]]] eqn:Hparts;
      try (rewrite line_effect_short; [done|rewrite Hparts; simpl; lia]).
    rewrite (line_effect_fields _ _ _ _ _ _ Hmode Hparts).
    intros H. split; [done|]. exists p0, p1, p2, rest. split; [done|].
    destruct (int_cases p2) as [[c Hc]|Hc]; [|by left]. rewrite Hc in H.
    destruct (pkg_match root _) as [pkg|]; [|done].
    destruct (int_cases p1) as [[n Hn]|Hn]; [by rewrite Hn in H|].
    right. eauto.
  - intros (Hmode & p0 & p1 & p2 & rest & Hparts & H).
    rewrite (line_effect_fields _ _ _ _ _ _ Hmode Hparts).
    destruct H as [->|[[pkg ->] ->]]; [done|]. by destruct (int p2).
Qed.

Lemma true_div_raises a b e : b <> 0 -> true_div a b = Raise e -> e = OverflowError.
Proof.
  intros Hb. unfold true_div. apply Z.eqb_neq in Hb. rewrite Hb.
  destruct (SFdiv _ _ _ _); congruence.
Qed.

Lemma build_results_raises items : forall e,
  build_results items = Raise e -> e = OverflowError.
Proof.
  induction items as [|[pkg s] items IH]; intros e; simpl; [discriminate|].
  destruct (0 <? total s) eqn:Hpos; simpl.
  - apply Z.ltb_lt in Hpos.
    destruct (true_div (covered s) (total s)) as [q|e'] eqn:Hq; simpl.
    + destruct (build_results items) as [rs|e']; simpl; [discriminate|].
      intros [= <-]. by apply IH.
    + intros [= <-]. eapply true_div_raises; [|exact Hq]. lia.
  - destruct (build_results items) as [rs|e']; simpl; [discriminate|].
    intros [= <-]. by apply IH.
Qed.

Lemma overall_coverage_raises pkg_stats e :
  overall_coverage pkg_stats = Raise e -> e = OverflowError.
Proof.
  unfold overall_coverage. destruct (0 <? overall_total pkg_stats) eqn:Hpos; [|discriminate].
  apply Z.ltb_lt in Hpos.
  destruct (true_div _ _) as [q|e'] eqn:Hq; simpl; [discriminate|].
  intros [= <-]. eapply true_div_raises; [|exact Hq]. lia.
Qed.

Lemma print_improvements_raises results e :
  (print_improvements results).2 = Some e ->
  e = ValueError /\
  exists before r after,
    improvement_rows results = (before ++ r :: after)%list /\
    exceeds_limit (missing r) = true /\
    (print_improvements results).1 = improvement_line <$> before.
Proof.
  induction results as [|r results IH]; simpl; [discriminate|].
  destruct (needs_improvement r) eqn:Hr; [|exact IH].
  destruct (exceeds_limit (missing r)) eqn:Hlim; simpl.
  - intros [= <-]. split; [done|]. exists [], r, (improvement_rows results). done.
  - intros H. destruct (IH H) as (-> & before & r' & after & -> & ? & ->).
    split; [done|]. by exists (r :: before), r', after.
Qed.

(** X4. Writing to standard output apart, a run of the script ends in one
    of five ways: with the error of the [with] block ([OSError],
    [UnicodeDecodeError], or [ValueError] from a conversion) before anything
    is printed; with [OverflowError] from a division, after the header;
    with [ValueError] inside the second table, at the first row whose
    deficit has too many digits to be printed; or with the whole report.
    The guards on [total] keep every division from a zero divisor. *)
Theorem run_outcomes root f :
  (exists e, read_file root f = Raise e /\ e <> ZeroDivisionError /\
             e <> OverflowError /\
             run_file root f = {| stdout := []; raised := Some e |}) \/
  (raised (run_file root f) = Some OverflowError /\
   exists printed, stdout (run_file root f) = (header ++ printed)%list) \/
  (raised (run_file root f) = Some ValueError /\
   exists results v before r after,
     improvement_rows results = (before ++ r :: after)%list /\
     exceeds_limit (missing r) = true /\
     stdout (run_file root f) =
       (header ++ (row_line <$> results)
          ++ [divider; overall_line v; ""; improvement_title; divider]
          ++ (improvement_line <$> before))%list) \/
  (raised (run_file root f) = None /\
   exists results v,
     stdout (run_file root f) =
       (header ++ (row_line <$> results)
          ++ [divider; overall_line v; ""; improvement_title; divider]
          ++ (improvement_line <$> improvement_rows results))%list).
Proof.
  assert (forall lines,
            read_lines root ∅ lines = Raise ValueError ->
            ValueError <> ZeroDivisionError /\ ValueError <> OverflowError) as Hne by done.
  destruct f as [|lines stop].
  { left. exists OSError. done. }
  destruct (read_lines root ∅ lines) as [m|e] eqn:Hread.
  2:{ left. exists e. pose proof (read_lines_raises _ _ _ _ Hread) as ->.
      simpl. rewrite Hread. by destruct stop; simpl; unfold main_with; rewrite ?Hread. }
  destruct stop; simpl; rewrite ?Hread; simpl;
    [|left; by exists UnicodeDecodeError|left; by exists OSError].
  right. unfold main_with. rewrite Hread.
  destruct (build_results (sorted_items m)) as [rs|e] eqn:Hrows.
  2:{ left. rewrite (build_results_raises _ _ Hrows). split; [done|]. by exists []. }
  destruct (overall_coverage m) as [v|e] eqn:Hv.
  2:{ left. rewrite (overall_coverage_raises _ _ Hv). split; [done|]. simpl. eauto. }
  right. cbn [raised stdout].
  destruct (print_improvements (sort_results rs)).2 as [e|] eqn:Hp.
  - left. destruct (print_improvements_raises _ _ Hp)
      as (-> & before & r & after & Hrows' & Hlim & ->).
    split; [done|]. exists (sort_results rs), v, before, r, after.
    do 2 (split; [done|]). by rewrite <- !app_assoc.
  - right. split; [done|]. exists (sort_results rs), v.
    by rewrite (print_improvements_None _ Hp), <- !app_assoc.
Qed.


(** ** The rows of the report *)

Lemma build_results_pkgs items : forall results,
  build_results items = Ok results ->
  row_pkg <$> results = (List.filter (fun item => 0 <? total item.2) items).*1.
Proof.
  induction items as [|[pkg s] items IH]; simpl; intros results.
  - by intros [= <-].
  - destruct (0 <? total s); simpl.
    + destruct (true_div _ _); simpl; [|discriminate].
      destruct (build_results items) as [rs|]; simpl; [|discriminate].
      intros [= <-]. simpl. f_equal. by apply IH.
    + destruct (build_results items) as [rs|]; simpl; [|discriminate].
      intros [= <-]. by apply IH.
Qed.

Lemma NoDup_filter_fst {A B} (f : A * B -> bool) (l : list (A * B)) :
  NoDup l.*1 -> NoDup (List.filter f l).*1.
Proof.
  induction l as [|x l IH]; simpl; [done|].
  rewrite !NoDup_cons. intros [Hx Hl].
  destruct (f x); simpl; [|by apply IH]. rewrite NoDup_cons. split; [|by apply IH].
  intros Hin. apply Hx. apply list_elem_of_fmap in Hin as (y & -> & Hy).
  apply list_elem_of_fmap. exists y. split; [done|].
  apply list_elem_of_In, filter_In in Hy as [Hy _]. by apply list_elem_of_In.
Qed.

Lemma results_pkgs_NoDup (pkg_stats : gmap string stats) results :
  build_results (sorted_items pkg_stats) = Ok results ->
  NoDup (row_pkg <$> sort_results results).
Proof.
  intros Hb. unfold sort_results.
  rewrite (fmap_Permutation _ _ _ (sort_Permutation _ _)), (build_results_pkgs _ _ Hb).
  apply NoDup_filter_fst. unfold sorted_items.
  rewrite (fmap_Permutation _ _ _ (sort_Permutation _ _)).
  apply NoDup_fst_map_to_list.
Qed.

Lemma results_pkgs_elem (pkg_stats : gmap string stats) results pkg :
  build_results (sorted_items pkg_stats) = Ok results ->
  pkg ∈ row_pkg <$> sort_results results <->
  exists s, pkg_stats !! pkg = Some s /\ 0 < total s.
Proof.
  intros Hb. unfold sort_results.
  rewrite (fmap_Permutation _ _ _ (sort_Permutation _ _)), (build_results_pkgs _ _ Hb),
    list_elem_of_fmap.
  split.
  - intros ([k s] & -> & Hin). apply list_elem_of_In, filter_In in Hin as [Hin Hpos].
    apply In_sorted_items in Hin. apply Z.ltb_lt in Hpos. eauto.
  - intros (s & Hs & Hpos). exists (pkg, s). split; [done|].
    apply list_elem_of_In, filter_In. split; [by apply In_sorted_items|].
    by apply Z.ltb_lt.
Qed.

(** X5. The first table has exactly one row for every package whose
    aggregate has a positive [total], and no row for any other: an aggregate
    whose [total] is 0 or negative is left out. *)
Theorem one_row_per_positive_aggregate (pkg_stats : gmap string stats) results :
  build_results (sorted_items pkg_stats) = Ok results ->
  NoDup (row_pkg <$> sort_results results) /\
  (forall pkg, pkg ∈ row_pkg <$> sort_results results <->
               exists s, pkg_stats !! pkg = Some s /\ 0 < total s).
Proof.
  intros Hb. split; [by eapply results_pkgs_NoDup|].
  intros pkg. by apply results_pkgs_elem.
Qed.

Lemma one_row_per_positive_aggregate_witness :
  NoDup (row_pkg <$> sort_results
           [{| row_pkg := "github.com/junbin-yang/go-kitbox/pkg/c";
               row_coverage := of_int 75; row_status := "Good";
               row_total := 4; row_covered := 3 |}]).
Proof.
  apply (one_row_per_positive_aggregate
           {["github.com/junbin-yang/go-kitbox/pkg/c" := {| total := 4; covered := 3 |};
             "github.com/junbin-yang/go-kitbox/pkg/d" := {| total := 0; covered := 0 |}]}).
  vm_compute. reflexivity.
Defined.

Section SortSorted.
Context {A : Type} (lt : A -> A -> bool).
Hypothesis lt_asym : forall x y, lt x y = true -> lt y x = false.

Let le (x y : A) : Prop := lt y x = false.

Lemma insert_sorted_HdRel a x l :
  HdRel le a l -> le a x -> HdRel le a (insert_sorted lt x l).
Proof using Type.
  intros Hl Hx. destruct l as [|y l]; simpl; [by constructor|].
  destruct (lt y x); constructor; [by inversion Hl|done].
Qed.

Lemma insert_sorted_Sorted x l : Sorted le l -> Sorted le (insert_sorted lt x l).
Proof using lt_asym.
  induction l as [|y l IH]; simpl; intros Hl.
  - by repeat constructor.
  - inversion Hl as [|? ? Hs Hh]; subst. destruct (lt y x) eqn:Hyx.
    + constructor; [by apply IH|]. apply insert_sorted_HdRel; [done|].
      by apply lt_asym.
    + constructor; [done|]. by constructor.
Qed.

Lemma sort_Sorted l : Sorted le (sort lt l).
Proof using lt_asym.
  induction l as [|x l IH]; simpl; [constructor|]. by apply insert_sorted_Sorted.
Qed.
End SortSorted.

Lemma SFltb_asym x y : SFltb x y = true -> SFltb y x = false.
Proof.
  unfold SFltb. rewrite (SFcompare_antisym x y).
  by destruct (SFcompare x y) as [[]|].
Qed.

Lemma SFleb_of_not_ltb x y :
  x <> S754_nan -> y <> S754_nan -> SFltb y x = false -> SFleb x y = true.
Proof.
  intros Hx Hy. unfold SFltb, SFleb. rewrite (SFcompare_antisym x y).
  destruct x as [| | |[] ? ?], y as [| | |[] ? ?]; try done;
    destruct (SFcompare _ _) as [[]|] eqn:E; try done; simpl in E;
    repeat match type of E with
           | context [match ?s with true => _ | false => _ end] => destruct s
           end; discriminate.
Qed.

(** X6. The rows are printed in ascending order of percentage: the sort
    keeps every row, and no row has a percentage below that of the row
    before it. *)
Theorem rows_sorted_ascending (pkg_stats : gmap string stats) results :
  build_results (sorted_items pkg_stats) = Ok results ->
  sort_results results ≡ₚ results /\ ascending (sort_results results).
Proof.
  intros Hb. split; [apply sort_Permutation|].
  assert (Forall (fun r => row_coverage r <> S754_nan) (sort_results results)) as Hnan.
  { apply Forall_forall. intros r Hr. apply list_elem_of_In in Hr.
    destruct (results_rows _ _ _ Hb Hr) as (s & _ & Hrow).
    eapply row_coverage_not_nan, Hrow. }
  pose proof (sort_Sorted (fun a b => lt (row_coverage a) (row_coverage b))
                (fun a b => SFltb_asym _ _) results) as Hs.
  unfold ascending. fold (sort_results results) in Hs.
  induction Hs as [|r l Hs IH Hh]; [constructor|].
  apply Forall_cons in Hnan as [Hr Hl]. constructor; [by apply IH|].
  destruct Hh as [|r' l' Hh]; constructor.
  apply Forall_cons in Hl as [Hr' _]. by apply SFleb_of_not_ltb.
Qed.


Lemma rows_sorted_ascending_witness :
  ascending (sort_results
    [{| row_pkg := "github.com/junbin-yang/go-kitbox/pkg/a";
        row_coverage := mul_int (S754_finite false 6004799503160661 (-54)) 100;
        row_status := "Needs Work"; row_total := 15; row_covered := 5 |};
     {| row_pkg := "github.com/junbin-yang/go-kitbox/pkg/b";
        row_coverage := of_int 100; row_status := "Good";
        row_total := 4; row_covered := 4 |}]).
Proof.
  apply (rows_sorted_ascending
           {["github.com/junbin-yang/go-kitbox/pkg/a" := {| total := 15; covered := 5 |};
             "github.com/junbin-yang/go-kitbox/pkg/b" := {| total := 4; covered := 4 |}]}).
  vm_compute. reflexivity.
Defined.

(** ** Package keys and short names *)

Lemma strip_prefix_Some p : forall s r, strip_prefix p s = Some r <-> s = p ++ r.
Proof.
  induction p as [|a p IH]; intros s r; simpl.
  - split; [intros [= ->]|intros ->]; reflexivity.
  - destruct s as [|b s]; [split; discriminate|].
    destruct (Ascii.eqb_spec a b) as [->|Hne].
    + rewrite IH. split; [by intros ->|by intros [= ->]].
    + split; [discriminate|by intros [= -> _]].
Qed.

Lemma segment_no_slash s : no_slash (segment s).
Proof.
  unfold no_slash. induction s as [|c s IH]; simpl; [tauto|].
  destruct (Ascii.eqb_spec c "/"); simpl; [tauto|]. intros [?|?]; auto.
Qed.

Lemma segment_rest s :
  exists rest, s = segment s ++ rest /\ (rest = "" \/ exists r, rest = String "/" r).
Proof.
  induction s as [|c s (rest & IH & Hrest)]; simpl; [exists ""; auto|].
  destruct (Ascii.eqb_spec c "/") as [->|Hne].
  - exists (String "/" s). eauto.
  - exists rest. split; [|done]. rewrite IH at 1. reflexivity.
Qed.

Lemma segment_app seg rest :
  no_slash seg -> (rest = "" \/ exists r, rest = String "/" r) ->
  segment (seg ++ rest) = seg.
Proof.
  unfold no_slash. intros Hseg Hrest. induction seg as [|c seg IH]; simpl in *.
  - destruct Hrest as [->|[r ->]]; reflexivity.
  - destruct (Ascii.eqb_spec c "/") as [->|Hne]; [tauto|]. f_equal. apply IH. tauto.
Qed.

(** X7. A path matches the pattern exactly when it is the root, then a
    package segment that is not empty and has no ["/"], then nothing or a
    ["/"] and anything; the key is the root and that segment. So every file
    below one package directory has the same key. *)
Theorem pkg_match_iff root path pkg :
  pkg_match root path = Some pkg <->
  exists seg rest,
    path = root ++ seg ++ rest /\ pkg = root ++ seg /\
    seg <> "" /\ no_slash seg /\ (rest = "" \/ exists r, rest = String "/" r).
Proof.
  unfold pkg_match. split.
  - destruct (strip_prefix root path) as [tail|] eqn:Hp; [|discriminate].
    apply strip_prefix_Some in Hp as ->.
    destruct (segment_rest tail) as (rest & Ht & Hrest).
    pose proof (segment_no_slash tail) as Hns.
    destruct (segment tail) as [|c seg] eqn:Hseg; [discriminate|].
    intros [= <-]. exists (String c seg), rest. by rewrite <- Ht.
  - intros (seg & rest & -> & -> & Hne & Hns & Hrest).
    assert (strip_prefix root (root ++ seg ++ rest) = Some (seg ++ rest)) as ->
      by by apply strip_prefix_Some.
    rewrite (segment_app _ _ Hns Hrest). by destruct seg.
Qed.

Lemma split_on_cons sep s : exists w ws, split_on sep s = w :: ws.
Proof.
  induction s as [|c s (w & ws & IH)]; simpl; [eauto|].
  destruct (Ascii.eqb c sep); [eauto|]. rewrite IH. eauto.
Qed.

Lemma split_on_no_sep sep s :
  ~ In sep (list_ascii_of_string s) -> split_on sep s = [s].
Proof.
  induction s as [|c s IH]; simpl; [done|]. intros Hs.
  destruct (Ascii.eqb_spec c sep) as [->|Hne]; [tauto|].
  rewrite IH by tauto. reflexivity.
Qed.

(** Appending text without the separator only extends the last part. *)
Lemma split_on_app_no_sep sep a b :
  ~ In sep (list_ascii_of_string b) ->
  exists init lst,
    split_on sep a = (init ++ [lst])%list /\
    split_on sep (a ++ b) = (init ++ [String.append lst b])%list.
Proof.
  intros Hb. induction a as [|c a (init & lst & Ha & Hab)].
  - exists [], "". split; [reflexivity|]. by apply split_on_no_sep.
  - change (String c a ++ b) with (String c (a ++ b)). simpl.
    destruct (Ascii.eqb c sep).
    + exists ("" :: init), lst. by rewrite Ha, Hab.
    + rewrite Ha, Hab. destruct init as [|i init]; simpl.
      * by exists [], (String c lst).
      * by exists (String c i :: init), lst.
Qed.

Lemma pkg_name_app a b : no_slash b -> pkg_name (a ++ b) = pkg_name a ++ b.
Proof.
  intros Hb. unfold pkg_name, last.
  destruct (split_on_app_no_sep "/" a b Hb) as (init & lst & -> & ->).
  by rewrite !last_last.
Qed.

Lemma pkg_match_key root path pkg :
  pkg_match root path = Some pkg ->
  exists seg, pkg = root ++ seg /\ seg <> "" /\ no_slash seg.
Proof.
  unfold pkg_match. destruct (strip_prefix root path) as [tail|]; [|discriminate].
  pose proof (segment_no_slash tail) as Hns.
  destruct (segment tail) as [|c seg]; [discriminate|]. intros [= <-]. eauto.
Qed.

(** X8. The name shown for a package is the last segment of the root
    followed by the package segment of the path; for a root that ends with
    ["/"], as the one of the script does, it is the package segment, and the
    key is the root followed by the name shown. *)
Theorem short_name_is_package_segment root path pkg :
  pkg_match root path = Some pkg ->
  exists seg,
    pkg = root ++ seg /\ seg <> "" /\
    pkg_name pkg = pkg_name root ++ seg /\
    (pkg_name root = "" -> pkg_name pkg = seg /\ pkg = root ++ pkg_name pkg).
Proof.
  intros H. destruct (pkg_match_key _ _ _ H) as (seg & -> & Hne & Hns).
  exists seg. rewrite (pkg_name_app _ _ Hns). do 3 (split; [done|]).
  by intros ->.
Qed.

Lemma short_name_is_package_segment_witness :
  exists seg,
    "github.com/junbin-yang/go-kitbox/pkg/netconn" = repo_root ++ seg /\ seg <> "" /\
    pkg_name "github.com/junbin-yang/go-kitbox/pkg/netconn" = pkg_name repo_root ++ seg /\
    (pkg_name repo_root = "" ->
     pkg_name "github.com/junbin-yang/go-kitbox/pkg/netconn" = seg /\
     "github.com/junbin-yang/go-kitbox/pkg/netconn" =
       repo_root ++ pkg_name "github.com/junbin-yang/go-kitbox/pkg/netconn").
Proof.
  apply (short_name_is_package_segment repo_root
           "github.com/junbin-yang/go-kitbox/pkg/netconn/tcp/server.go").
  reflexivity.
Defined.

(** Every key of the aggregates is the root followed by a segment. *)
Lemma read_lines_keys root lines : forall pkg_stats pkg_stats' pkg,
  read_lines root pkg_stats lines = Ok pkg_stats' ->
  is_Some (pkg_stats' !! pkg) ->
  is_Some (pkg_stats !! pkg) \/ exists seg, pkg = root ++ seg /\ no_slash seg.
Proof.
  induction lines as [|line lines IH]; intros m m' pkg; cbn [read_lines].
  - intros [= <-]. auto.
  - rewrite process_line_effect. unfold line_effect.
    destruct (startswith "mode:" line); [apply IH|].
    destruct (_ <? _)%nat; [apply IH|].
    destruct (int (nth 2 _ _)); [|discriminate].
    destruct (pkg_match root _) as [k|] eqn:Hk; [|apply IH].
    destruct (int (nth 1 _ _)); [|discriminate]. cbn [apply_effect bind].
    intros H Hin. destruct (IH _ _ _ H Hin) as [Hm|?]; [|by right].
    destruct (decide (k = pkg)) as [<-|Hne].
    + right. destruct (pkg_match_key _ _ _ Hk) as (seg & ? & _ & ?). eauto.
    + left. by rewrite lookup_insert_ne in Hm.
Qed.

(** X9. No two rows of a report show the same package name: the keys of
    the aggregates differ only in their package segment, which is what the
    name shown ends with. *)
Theorem short_names_distinct root lines (pkg_stats : gmap string stats) results :
  read_lines root ∅ lines = Ok pkg_stats ->
  build_results (sorted_items pkg_stats) = Ok results ->
  NoDup ((fun r => pkg_name (row_pkg r)) <$> sort_results results).
Proof.
  intros Hread Hb.
  assert (NoDup (pkg_name <$> (row_pkg <$> sort_results results))) as H;
    [|by rewrite <- list_fmap_compose in H].
  apply NoDup_fmap_2_strong; [|by eapply results_pkgs_NoDup].
  intros k1 k2 H1 H2 Hname.
  apply (results_pkgs_elem _ _ _ Hb) in H1 as (s1 & Hs1 & _).
  apply (results_pkgs_elem _ _ _ Hb) in H2 as (s2 & Hs2 & _).
  destruct (read_lines_keys _ _ _ _ k1 Hread) as [[? Hm]|(seg1 & -> & Hn1)];
    [eauto|by rewrite lookup_empty in Hm|].
  destruct (read_lines_keys _ _ _ _ k2 Hread) as [[? Hm]|(seg2 & -> & Hn2)];
    [eauto|by rewrite lookup_empty in Hm|].
  rewrite !pkg_name_app in Hname by done.
  by apply (inj (String.append _)) in Hname as ->.
Qed.

Lemma short_names_distinct_witness :
  NoDup ((fun r => pkg_name (row_pkg r)) <$> sort_results
    [{| row_pkg := "github.com/junbin-yang/go-kitbox/pkg/a";
        row_coverage := mul_int (S754_finite false 6004799503160661 (-54)) 100;
        row_status := "Needs Work"; row_total := 15; row_covered := 5 |};
     {| row_pkg := "github.com/junbin-yang/go-kitbox/pkg/b";
        row_coverage := of_int 100; row_status := "Good";
        row_total := 4; row_covered := 4 |}]).
Proof.
  apply (short_names_distinct repo_root
           ["github.com/junbin-yang/go-kitbox/pkg/a/file.go:1.1,2.2 5 1";
            "github.com/junbin-yang/go-kitbox/pkg/a/file2.go:3.1,4.2 10 0";
            "github.com/junbin-yang/go-kitbox/pkg/b/file.go:1.1,2.2 4 4"]
           {["github.com/junbin-yang/go-kitbox/pkg/a" := {| total := 15; covered := 5 |};
             "github.com/junbin-yang/go-kitbox/pkg/b" := {| total := 4; covered := 4 |}]}).
  - vm_compute. reflexivity.
  - vm_compute. reflexivity.
Defined.

(** ** Well-formed files *)

Lemma sum_nonneg l : Forall (fun x => 0 <= x) l -> 0 <= sum l.
Proof.
  induction 1 as [|x l Hx _ IH]; [done|]. rewrite sum_cons. lia.
Qed.

Lemma well_formed_line_sums root pkg line :
  well_formed root line = true ->
  0 <= line_covered root pkg line <= line_statements root pkg line.
Proof.
  unfold well_formed, line_covered, line_statements.
  destruct (line_effect root line) as [|e|k n c]; [lia|lia|].
  intros Hn. apply Z.leb_le in Hn.
  destruct (String.eqb k pkg), (0 <? c); simpl; lia.
Qed.

Lemma well_formed_sums root pkg lines :
  Forall (fun line => well_formed root line = true) lines ->
  0 <= sum (line_covered root pkg <$> lines) /\
  0 <= sum (line_statements root pkg <$> lines).
Proof.
  intros H. split; apply sum_nonneg, Forall_fmap; eapply Forall_impl; try exact H;
    intros line Hl; pose proof (well_formed_line_sums root pkg line Hl); simpl; lia.
Qed.

(** X10. Reading more lines never removes an aggregate, and when the
    further lines are well formed it never lowers the [total] or the
    [covered] of a package. *)
Theorem aggregates_only_grow root lines more (pkg_stats pkg_stats' : gmap string stats) pkg :
  read_lines root ∅ lines = Ok pkg_stats ->
  read_lines root ∅ (lines ++ more) = Ok pkg_stats' ->
  (is_Some (pkg_stats !! pkg) -> is_Some (pkg_stats' !! pkg)) /\
  (Forall (fun line => well_formed root line = true) more ->
   total (entry pkg pkg_stats) <= total (entry pkg pkg_stats') /\
   covered (entry pkg pkg_stats) <= covered (entry pkg pkg_stats')).
Proof.
  intros H1 H2. rewrite read_lines_app, H1 in H2. simpl in H2.
  destruct (read_lines_entry root pkg more _ _ H2) as (Ht & Hc & Hk).
  split; [rewrite Hk; auto|]. intros Hwf.
  destruct (well_formed_sums root pkg more Hwf). lia.
Qed.

Lemma aggregates_only_grow_witness :
  total (entry "github.com/junbin-yang/go-kitbox/pkg/a"
           {["github.com/junbin-yang/go-kitbox/pkg/a" := {| total := 5; covered := 5 |}]})
  <= total (entry "github.com/junbin-yang/go-kitbox/pkg/a"
              {["github.com/junbin-yang/go-kitbox/pkg/a" := {| total := 15; covered := 5 |}]}).
Proof.
  apply (aggregates_only_grow repo_root
           ["github.com/junbin-yang/go-kitbox/pkg/a/file.go:1.1,2.2 5 1"]
           ["github.com/junbin-yang/go-kitbox/pkg/a/file2.go:3.1,4.2 10 0"]).
  - vm_compute. reflexivity.
  - vm_compute. reflexivity.
  - repeat constructor.
Defined.

(** The aggregates of a well-formed file: [0 <= covered <= total]. *)
Lemma well_formed_aggregate root lines (pkg_stats : gmap string stats) pkg s :
  Forall (fun line => well_formed root line = true) lines ->
  read_lines root ∅ lines = Ok pkg_stats ->
  pkg_stats !! pkg = Some s ->
  0 <= covered s <= total s.
Proof.
  intros Hwf Hread Hs.
  destruct (read_lines_entry root pkg lines _ _ Hread) as (Ht & Hc & _).
  unfold entry in Ht, Hc. rewrite Hs, lookup_empty in Ht, Hc. simpl in Ht, Hc.
  destruct (well_formed_sums root pkg lines Hwf).
  pose proof (covered_bounded_read_lines root lines Hwf ∅ pkg_stats
                covered_bounded_empty Hread pkg s Hs). lia.
Qed.

Lemma build_results_counts items : forall results,
  build_results items = Ok results ->
  row_total <$> results =
    (fun item => total item.2) <$> List.filter (fun item => 0 <? total item.2) items /\
  row_covered <$> results =
    (fun item => covered item.2) <$> List.filter (fun item => 0 <? total item.2) items.
Proof.
  induction items as [|[pkg s] items IH]; simpl; intros results.
  - by intros [= <-].
  - destruct (0 <? total s); simpl.
    + destruct (true_div _ _); simpl; [|discriminate].
      destruct (build_results items) as [rs|]; simpl; [|discriminate].
      intros [= <-]. destruct (IH rs eq_refl) as [IH1 IH2].
      rewrite !fmap_cons, IH1, IH2. done.
    + destruct (build_results items) as [rs|]; simpl; [|discriminate].
      intros [= <-]. by apply IH.
Qed.

Lemma sum_filter_zero {A} (f : A -> bool) (g : A -> Z) l :
  (forall x, In x l -> f x = false -> g x = 0) ->
  sum (g <$> List.filter f l) = sum (g <$> l).
Proof.
  induction l as [|x l IH]; intros H; [done|]. cbn [List.filter].
  rewrite fmap_cons, sum_cons, <- IH by (intros; apply H; simpl; auto).
  destruct (f x) eqn:Hx; [by rewrite fmap_cons, sum_cons|].
  rewrite (H x) by (simpl; auto). lia.
Qed.

(** X11. For a well-formed file the overall figures are the sums of the
    rows of the first table: the aggregates that have no row add nothing to
    [overall_total] or [overall_covered]. *)
Theorem overall_is_sum_of_rows root lines (pkg_stats : gmap string stats) results :
  Forall (fun line => well_formed root line = true) lines ->
  read_lines root ∅ lines = Ok pkg_stats ->
  build_results (sorted_items pkg_stats) = Ok results ->
  overall_total pkg_stats = sum (row_total <$> sort_results results) /\
  overall_covered pkg_stats = sum (row_covered <$> sort_results results).
Proof.
  intros Hwf Hread Hb.
  assert (forall item, In item (sorted_items pkg_stats) ->
            (0 <? total item.2) = false -> total item.2 = 0 /\ covered item.2 = 0) as Hz.
  { intros [k s] Hin Hpos. apply In_sorted_items in Hin. apply Z.ltb_ge in Hpos.
    pose proof (well_formed_aggregate _ _ _ _ _ Hwf Hread Hin). simpl in *. lia. }
  destruct (build_results_counts _ _ Hb) as [Ht Hc].
  destruct (overall_sums_any_order pkg_stats (sorted_items pkg_stats)) as [<- <-];
    [apply sort_Permutation|].
  unfold sort_results.
  rewrite (sum_Permutation (row_total <$> sort _ results) (row_total <$> results))
    by apply fmap_Permutation, sort_Permutation.
  rewrite (sum_Permutation (row_covered <$> sort _ results) (row_covered <$> results))
    by apply fmap_Permutation, sort_Permutation.
  rewrite Ht, Hc, <- !list_fmap_compose.
  rewrite !sum_filter_zero; [done| |]; intros item Hin Hpos; by apply Hz.
Qed.

Lemma overall_is_sum_of_rows_witness :
  overall_total
    {["github.com/junbin-yang/go-kitbox/pkg/a" := {| total := 15; covered := 5 |};
      "github.com/junbin-yang/go-kitbox/pkg/z" := {| total := 0; covered := 0 |}]}
  = sum (row_total <$> sort_results
      [{| row_pkg := "github.com/junbin-yang/go-kitbox/pkg/a";
          row_coverage := mul_int (S754_finite false 6004799503160661 (-54)) 100;
          row_status := "Needs Work"; row_total := 15; row_covered := 5 |}]).
Proof.
  destruct (overall_is_sum_of_rows repo_root
           ["github.com/junbin-yang/go-kitbox/pkg/a/file.go:1.1,2.2 5 1";
            "github.com/junbin-yang/go-kitbox/pkg/z/empty.go:1.1,2.2 0 0";
            "github.com/junbin-yang/go-kitbox/pkg/a/file2.go:3.1,4.2 10 0"]
           {["github.com/junbin-yang/go-kitbox/pkg/a" := {| total := 15; covered := 5 |};
             "github.com/junbin-yang/go-kitbox/pkg/z" := {| total := 0; covered := 0 |}]}
           [{| row_pkg := "github.com/junbin-yang/go-kitbox/pkg/a";
               row_coverage := mul_int (S754_finite false 6004799503160661 (-54)) 100;
               row_status := "Needs Work"; row_total := 15; row_covered := 5 |}])
    as [H _].
  - repeat constructor.
  - vm_compute. reflexivity.
  - vm_compute. reflexivity.
  - exact H.
Defined.

(** ** Blanks around a line *)

Lemma split_blank ws : blank ws -> split ws = [].
Proof.
  unfold blank. induction ws as [|c ws IH]; simpl; [done|].
  intros [Hc Hws]%Forall_cons. by rewrite Hc, IH.
Qed.

Lemma split_cons_cons c d r :
  split (String c (String d r)) =
    if is_space c then split (String d r)
    else if is_space d then String c "" :: split (String d r)
    else match split (String d r) with
         | w :: ws => String c w :: ws
         | [] => [String c ""]
         end.
Proof. reflexivity. Qed.

Lemma split_app_blank s ws : blank ws -> split (s ++ ws) = split s.
Proof.
  intros Hws. induction s as [|c s IH].
  - by apply split_blank.
  - destruct s as [|d s].
    + change (String c "" ++ ws) with (String c ws). simpl.
      destruct (is_space c); [by apply split_blank|].
      destruct ws as [|d ws]; [done|]. rewrite (split_blank _ Hws).
      apply Forall_cons in Hws as [-> _]. reflexivity.
    + change (String c (String d s) ++ ws) with (String c (String d s ++ ws)).
      change (String d s ++ ws) with (String d (s ++ ws)) in *.
      by rewrite !split_cons_cons, IH.
Qed.

Lemma split_lstrip s : split (lstrip s) = split s.
Proof.
  induction s as [|c s IH]; simpl; [done|].
  destruct (is_space c) eqn:Hc; [done|]. simpl. by rewrite Hc.
Qed.

Lemma rstrip_blank s : exists ws, s = rstrip s ++ ws /\ blank ws.
Proof.
  induction s as [|c s (ws & Hs & Hws)]; simpl; [by exists ""; split; [|constructor]|].
  destruct (rstrip s) as [|d r] eqn:Hr.
  - destruct (is_space c) eqn:Hc.
    + exists (String c s). split; [done|]. change ("" ++ ws) with ws in Hs. subst ws.
      by constructor.
    + exists ws. split; [|done]. by rewrite Hs at 1.
  - exists ws. split; [|done]. by rewrite Hs at 1.
Qed.

Lemma split_strip s : split (strip s) = split s.
Proof.
  unfold strip. rewrite split_lstrip.
  destruct (rstrip_blank s) as (ws & Hs & Hws).
  rewrite Hs at 2. by rewrite split_app_blank.
Qed.

Lemma startswith_app_blank p s ws :
  Forall (fun c => is_space c = false) (list_ascii_of_string p) ->
  blank ws -> startswith p (s ++ ws) = startswith p s.
Proof.
  unfold blank. intros Hp Hws. revert s.
  induction p as [|a p IH]; intros s; [done|].
  apply Forall_cons in Hp as [Ha Hp].
  destruct s as [|b s].
  - change ("" ++ ws) with ws. destruct ws as [|c ws]; [done|]. simpl.
    apply Forall_cons in Hws as [Hc _].
    destruct (Ascii.eqb_spec a c) as [->|]; [congruence|done].
  - change (String b s ++ ws) with (String b (s ++ ws)). simpl.
    destruct (Ascii.eqb a b); [by apply IH|done].
Qed.

(** X12. Blanks at the end of a line, its line terminator among them, make
    no difference to what the line does; the [strip] before the [split] is
    redundant. *)
Theorem trailing_blanks_ignored root pkg_stats line ws :
  blank ws ->
  process_line root pkg_stats (line ++ ws) = process_line root pkg_stats line /\
  split (strip line) = split line.
Proof.
  intros Hws. split; [|apply split_strip].
  unfold process_line.
  rewrite (startswith_app_blank "mode:" line ws) by (done || by repeat constructor).
  by rewrite !split_strip, split_app_blank.
Qed.

Lemma trailing_blanks_ignored_witness :
  process_line repo_root ∅
    ("github.com/junbin-yang/go-kitbox/pkg/a/file.go:1.1,2.2 5 1"
       ++ String (ascii_of_nat 13) (String (ascii_of_nat 10) "")) =
  process_line repo_root ∅ "github.com/junbin-yang/go-kitbox/pkg/a/file.go:1.1,2.2 5 1".
Proof.
  apply (trailing_blanks_ignored repo_root ∅
           "github.com/junbin-yang/go-kitbox/pkg/a/file.go:1.1,2.2 5 1"
           (String (ascii_of_nat 13) (String (ascii_of_nat 10) ""))).
  repeat constructor.
Defined.

(** ** No overflow on well-formed files *)

Lemma digits2_pos_lt p : forall k, Zpos p < 2 ^ k -> Zpos (digits2_pos p) <= k.
Proof.
  induction p as [p IH|p IH|]; intros k Hk; simpl.
  - assert (1 <= k) by (destruct (Z.le_gt_cases k 0) as [H|H]; [|lia];
      pose proof (Z.pow_le_mono_r 2 k 0 ltac:(lia) H); simpl in *; lia).
    replace k with (Z.succ (k - 1)) in Hk by lia. rewrite Z.pow_succ_r in Hk by lia.
    specialize (IH (k - 1)). lia.
  - assert (1 <= k) by (destruct (Z.le_gt_cases k 0) as [H|H]; [|lia];
      pose proof (Z.pow_le_mono_r 2 k 0 ltac:(lia) H); simpl in *; lia).
    replace k with (Z.succ (k - 1)) in Hk by lia. rewrite Z.pow_succ_r in Hk by lia.
    specialize (IH (k - 1)). lia.
  - destruct (Z.le_gt_cases k 0) as [H|H]; [|lia].
    pose proof (Z.pow_le_mono_r 2 k 0 ltac:(lia) H). simpl in *. lia.
Qed.

Lemma Zdigits2_lt m k : 0 <= m < 2 ^ k -> 0 <= k -> Zdigits2 m <= k.
Proof.
  intros [H0 Hk] Hk0. destruct m as [|p|p]; simpl; [lia| |lia].
  by apply digits2_pos_lt.
Qed.

Lemma digits2_pos_succ p :
  (digits2_pos (Pos.succ p) <= Pos.succ (digits2_pos p))%positive.
Proof. induction p as [p IH|p IH|]; simpl; lia. Qed.

Lemma round_nearest_even_digits m l :
  0 <= m ->
  0 <= round_nearest_even m l /\ Zdigits2 (round_nearest_even m l) <= Zdigits2 m + 1.
Proof.
  intros Hm.
  assert (Zdigits2 (m + 1) <= Zdigits2 m + 1) as H1.
  { destruct m as [|p|p]; simpl; [lia| |lia].
    rewrite Pos.add_1_r. pose proof (digits2_pos_succ p). lia. }
  unfold round_nearest_even. destruct l as [|[]]; try destruct (Z.even m); lia.
Qed.

Lemma shr_1_digits mrs :
  0 <= shr_m mrs ->
  0 <= shr_m (shr_1 mrs) /\
  Zdigits2 (shr_m (shr_1 mrs)) = Z.max 0 (Zdigits2 (shr_m mrs) - 1).
Proof.
  destruct mrs as [m r s]. simpl.
  destruct m as [|[p|p|]|p]; simpl; lia.
Qed.

Lemma iter_pos_shr_1_digits p : forall mrs,
  0 <= shr_m mrs ->
  0 <= shr_m (SpecFloat.iter_pos shr_1 p mrs) /\
  Zdigits2 (shr_m (SpecFloat.iter_pos shr_1 p mrs)) =
    Z.max 0 (Zdigits2 (shr_m mrs) - Zpos p).
Proof.
  induction p as [p IH|p IH|]; intros mrs H; simpl.
  - destruct (shr_1_digits mrs H) as [H1 E1].
    destruct (IH _ H1) as [H2 E2]. destruct (IH _ H2) as [H3 E3].
    split; [done|]. rewrite E3, E2, E1. lia.
  - destruct (IH _ H) as [H2 E2]. destruct (IH _ H2) as [H3 E3].
    split; [done|]. rewrite E3, E2. lia.
  - apply shr_1_digits, H.
Qed.

Lemma shr_digits mrs e n :
  0 <= shr_m mrs ->
  0 <= shr_m (shr mrs e n).1 /\
  Zdigits2 (shr_m (shr mrs e n).1) = Z.max 0 (Zdigits2 (shr_m mrs) - Z.max 0 n) /\
  (shr mrs e n).2 = e + Z.max 0 n.
Proof.
  intros H. unfold shr. destruct n as [|p|p]; simpl.
  - split; [done|]. split; [|lia]. destruct (shr_m mrs); simpl in *; lia.
  - destruct (iter_pos_shr_1_digits p mrs H) as [H1 E1]. split; [done|]. split; [|lia].
    rewrite E1. lia.
  - split; [done|]. split; [|lia]. destruct (shr_m mrs); simpl in *; lia.
Qed.

Lemma shr_fexp_digits m e l :
  0 <= m ->
  let r := shr_fexp prec emax m e l in
  let n := fexp prec emax (Zdigits2 m + e) - e in
  0 <= shr_m r.1 /\
  Zdigits2 (shr_m r.1) = Z.max 0 (Zdigits2 m - Z.max 0 n) /\
  r.2 = e + Z.max 0 n.
Proof.
  intros Hm. unfold shr_fexp.
  assert (shr_m (shr_record_of_loc m l) = m) as Hrec by by destruct l as [|[]].
  pose proof (shr_digits (shr_record_of_loc m l) e
                (fexp prec emax (Zdigits2 m + e) - e)) as H.
  rewrite Hrec in H. by apply H.
Qed.

Lemma binary_round_aux_small sx m e l :
  0 <= m -> e <= 0 -> Zdigits2 m + e <= 2 ->
  forall s, binary_round_aux prec emax sx m e l <> S754_infinity s.
Proof.
  intros Hm He Hd s. unfold binary_round_aux.
  destruct (shr_fexp_digits m e l Hm) as (H1 & D1 & E1).
  destruct (shr_fexp prec emax m e l) as [mrs1 e1]. simpl in H1, D1, E1.
  destruct (round_nearest_even_digits (shr_m mrs1) (loc_of_shr_record mrs1) H1)
    as [Hr Dr].
  destruct (shr_fexp_digits _ e1 loc_Exact Hr) as (H2 & D2 & E2).
  destruct (shr_fexp prec emax _ e1 loc_Exact) as [mrs2 e2]. simpl in H2, D2, E2.
  destruct (shr_m mrs2) as [|p|p]; [done| |done].
  assert (e2 <= emax - prec) as Hle.
  { revert E1 E2 D1 Dr. unfold fexp, SpecFloat.emin, prec, emax in *. lia. }
  apply Z.leb_le in Hle. by rewrite Hle.
Qed.

Lemma SFdiv_core_binary_small a b :
  0 < a <= b ->
  let r := SFdiv_core_binary prec emax a 0 b 0 in
  0 <= r.1.1 /\ r.1.2 <= 0 /\ Zdigits2 r.1.1 + r.1.2 <= 2.
Proof.
  intros [Ha Hab]. unfold SFdiv_core_binary.
  set (e' := Z.min _ _).
  assert (e' <= 0) as He' by (subst e'; lia).
  set (m' := match _ with Z0 => a | Zpos _ => _ | Zneg _ => 0 end).
  assert (m' = a * 2 ^ (- e')) as Hm'.
  { subst m'. replace (0 - 0 - e') with (- e') by lia.
    destruct (- e') as [|p|p] eqn:E; [simpl; lia| |lia].
    rewrite Z.shiftl_mul_pow2 by lia. done. }
  pose proof (Z.pow_pos_nonneg 2 (- e') ltac:(lia) ltac:(lia)) as Hpow.
  assert (0 <= m' / b <= 2 ^ (- e')) as Hq.
  { split; [apply Z.div_pos; nia|]. apply Z.div_le_upper_bound; nia. }
  unfold Z.div in Hq. destruct (Z.div_eucl m' b) as [q r]. simpl in *.
  split; [lia|]. split; [done|].
  assert (Zdigits2 q <= - e' + 1); [|lia].
  apply Zdigits2_lt; [|lia]. rewrite Z.pow_add_r by lia. lia.
Qed.

Lemma true_div_le a b :
  0 <= a <= b -> 0 < b -> exists q, true_div a b = Ok q.
Proof.
  intros Hab Hb. unfold true_div.
  assert ((b =? 0) = false) as -> by (apply Z.eqb_neq; lia).
  destruct b as [|pb|pb]; [lia| |lia].
  destruct a as [|pa|pa]; [simpl; eauto| |lia].
  unfold exact. cbn [SFdiv xorb].
  pose proof (SFdiv_core_binary_small (Zpos pa) (Zpos pb) ltac:(lia)) as (H1 & H2 & H3).
  destruct (SFdiv_core_binary prec emax (Zpos pa) 0 (Zpos pb) 0) as [[mz ez] lz].
  simpl in H1, H2, H3.
  pose proof (binary_round_aux_small false mz ez lz H1 H2 H3) as Hinf.
  destruct (binary_round_aux prec emax false mz ez lz); eauto.
  by destruct (Hinf s).
Qed.

Lemma build_results_ok items :
  Forall (fun item : string * stats => 0 <= covered item.2 <= total item.2) items ->
  exists results, build_results items = Ok results.
Proof.
  induction 1 as [|[pkg s] items Hs _ [rs IH]]; simpl; [eauto|]. rewrite IH.
  destruct (0 <? total s) eqn:Hpos; simpl; [|eauto].
  apply Z.ltb_lt in Hpos. simpl in Hs.
  destruct (true_div_le _ _ Hs Hpos) as [q ->]. simpl. eauto.
Qed.

Lemma sums_bounded (l : list stats) :
  Forall (fun s => 0 <= covered s <= total s) l ->
  0 <= sum (covered <$> l) <= sum (total <$> l).
Proof.
  induction 1 as [|s l Hs _ IH]; [done|]. rewrite !fmap_cons, !sum_cons. lia.
Qed.

Lemma print_improvements_within results :
  Forall (fun r => exceeds_limit (missing r) = false) results ->
  (print_improvements results).2 = None.
Proof.
  induction 1 as [|r results Hr _ IH]; simpl; [done|].
  destruct (needs_improvement r); [|done]. by rewrite Hr.
Qed.

(** X13. A well-formed file whose lines all convert always gets its first
    table and its overall line: with no negative statement count every
    quotient lies between 0 and 1, so no division overflows. The run then
    ends without an exception when no aggregate has a deficit
    [total - covered] of more than [max_str_digits] digits, and can
    otherwise only end with the [ValueError] of printing such a deficit. *)
Theorem well_formed_file_gets_report root lines (pkg_stats : gmap string stats) :
  Forall (fun line => well_formed root line = true) lines ->
  read_lines root ∅ lines = Ok pkg_stats ->
  (exists results v printed,
     stdout (main_with root lines) =
       (header ++ (row_line <$> results)
          ++ [divider; overall_line v; ""; improvement_title; divider]
          ++ printed)%list) /\
  (raised (main_with root lines) = None \/
   raised (main_with root lines) = Some ValueError) /\
  ((forall pkg s, pkg_stats !! pkg = Some s ->
                  exceeds_limit (total s - covered s) = false) ->
   raised (main_with root lines) = None).
Proof.
  intros Hwf Hread. unfold main_with. rewrite Hread.
  destruct (build_results_ok (sorted_items pkg_stats)) as [rs Hrs].
  { apply Forall_forall. intros [k s] Hin%list_elem_of_In%In_sorted_items.
    apply (well_formed_aggregate _ _ _ _ _ Hwf Hread Hin). }
  rewrite Hrs.
  assert (exists v, overall_coverage pkg_stats = Ok v) as [v ->].
  { unfold overall_coverage. destruct (0 <? overall_total pkg_stats) eqn:Hpos; [|eauto].
    apply Z.ltb_lt in Hpos.
    destruct (true_div_le (overall_covered pkg_stats) (overall_total pkg_stats)) as [q ->];
      [|done|simpl; eauto].
    apply sums_bounded, Forall_forall. intros s Hs. unfold values in Hs.
    apply list_elem_of_fmap in Hs as ([k s'] & -> & Hin%elem_of_map_to_list).
    apply (well_formed_aggregate _ _ _ _ _ Hwf Hread Hin). }
  cbn [raised stdout]. split; [|split].
  - exists (sort_results rs), v, (print_improvements (sort_results rs)).1.
    by rewrite <- !app_assoc.
  - destruct (print_improvements (sort_results rs)).2 as [e|] eqn:Hp; [|by left].
    right. by destruct (print_improvements_raises _ _ Hp) as [-> _].
  - intros Hlim. apply print_improvements_within, Forall_forall.
    intros r Hr%list_elem_of_In.
    destruct (results_rows _ _ _ Hrs Hr) as (s & Hs & Hrow).
    destruct Hrow as (_ & _ & Ht & Hc & _). simpl in Ht, Hc.
    unfold missing. rewrite Ht, Hc. by eapply Hlim.
Qed.

Lemma well_formed_file_gets_report_witness :
  raised (main ["mode: set";
                "github.com/junbin-yang/go-kitbox/pkg/a/file.go:1.1,2.2 5 1";
                "github.com/junbin-yang/go-kitbox/pkg/a/file2.go:3.1,4.2 10 0"]) = None.
Proof.
  destruct (well_formed_file_gets_report repo_root
           ["mode: set";
            "github.com/junbin-yang/go-kitbox/pkg/a/file.go:1.1,2.2 5 1";
            "github.com/junbin-yang/go-kitbox/pkg/a/file2.go:3.1,4.2 10 0"]
           {["github.com/junbin-yang/go-kitbox/pkg/a" := {| total := 15; covered := 5 |}]})
    as (_ & _ & H).
  - repeat constructor.
  - vm_compute. reflexivity.
  - apply H. intros pkg s Hs.
    apply lookup_singleton_Some in Hs as [_ <-]. vm_compute. reflexivity.
Defined.

(** Without the first condition a division can overflow: a huge statement
    count that a negative one cancels in [total] only. *)
Example overflow_is_reachable :
  let big := "1" ++ repeat "0" 400 in
  main [repo_root ++ "a/x.go:1.1,2.2 " ++ big ++ " 1";
        repo_root ++ "a/y.go:1.1,2.2 -" ++ big ++ " 0";
        repo_root ++ "a/z.go:1.1,2.2 1 0"] =
    {| stdout := header; raised := Some OverflowError |}.
Proof. vm_compute. reflexivity. Qed.

(** Without the last condition the second table can fail: two counts that
    convert, of 4300 digits and of one, add up to a deficit of 4301
    digits, and a literal of 4301 digits does not convert. *)
Example deficit_beyond_limit :
  let nines := repeat "9" 4300 in
  let lines := [repo_root ++ "a/x.go:1.1,2.2 " ++ nines ++ " 0";
                repo_root ++ "a/y.go:1.1,2.2 1 0"] in
  forallb (well_formed repo_root) lines = true /\
  raised (main lines) = Some ValueError /\
  int (repeat "9" 4301) = Raise ValueError.
Proof. split; [|split]; vm_compute; reflexivity. Qed.

(** ** Rows with the same percentage *)

Section SortTotal.
Context {A : Type} (lt : A -> A -> bool).
Hypothesis lt_trans : forall x y z, lt x y = true -> lt y z = true -> lt x z = true.

Let below (x y : A) : Prop := lt x y = true.

Lemma insert_sorted_StronglySorted x l :
  (forall y, In y l -> lt y x = true \/ lt x y = true) ->
  StronglySorted below l -> StronglySorted below (insert_sorted lt x l).
Proof using lt_trans.
  induction l as [|y l IH]; simpl; intros Hx Hl.
  - by repeat constructor.
  - apply StronglySorted_inv in Hl as [Hl Hy].
    destruct (lt y x) eqn:Hyx.
    + constructor; [apply IH; auto|].
      apply Forall_forall. intros z Hz%list_elem_of_In.
      apply (Permutation_in _ (insert_sorted_Permutation lt x l)) in Hz as [<-|Hz]; [done|].
      rewrite Forall_forall in Hy. apply Hy. by apply list_elem_of_In.
    + assert (lt x y = true) as Hxy by (destruct (Hx y); [by left|congruence|done]).
      constructor; [by constructor|]. constructor; [done|].
      eapply Forall_impl; [exact Hy|]. intros z Hz. by eapply lt_trans.
Qed.

Lemma sort_StronglySorted l :
  (forall x y, In x l -> In y l -> x = y \/ lt x y = true \/ lt y x = true) ->
  NoDup l ->
  StronglySorted below (sort lt l).
Proof using lt_trans.
  induction l as [|x l IH]; simpl; intros Hd Hnd; [constructor|].
  apply NoDup_cons in Hnd as [Hx Hnd].
  apply insert_sorted_StronglySorted; [|apply IH; auto].
  intros y Hy%In_sort.
  destruct (Hd x y) as [->|[?|?]]; auto.
  by destruct Hx; apply list_elem_of_In.
Qed.
End SortTotal.

Section SortStable.
Context {A : Type} (lt before : A -> A -> bool).
Hypothesis lt_asym : forall x y, lt x y = true -> lt y x = false.

(** [y] may follow [x]: it is not smaller, and on a tie [x] is [before] it. *)
Let follows (x y : A) : Prop :=
  lt y x = false /\ (lt x y = false -> before x y = true).

Lemma insert_sorted_follows_HdRel a x l :
  HdRel follows a l -> lt a x = true -> HdRel follows a (insert_sorted lt x l).
Proof using lt_asym.
  intros Hl Hx. assert (follows a x) by (split; [by apply lt_asym|congruence]).
  destruct l as [|y l]; simpl; [by constructor|].
  destruct (lt y x); constructor; [by inversion Hl|done].
Qed.

Lemma insert_sorted_follows x l :
  Forall (fun y => before x y = true) l ->
  Sorted follows l -> Sorted follows (insert_sorted lt x l).
Proof using lt_asym.
  induction l as [|y l IH]; simpl; intros Hx Hl.
  - by repeat constructor.
  - apply Forall_cons in Hx as [Hxy Hx]. inversion Hl as [|? ? Hs Hh]; subst.
    destruct (lt y x) eqn:Hyx.
    + constructor; [by apply IH|]. by apply insert_sorted_follows_HdRel.
    + constructor; [done|]. constructor. by split.
Qed.

Lemma sort_follows l :
  StronglySorted (fun x y => before x y = true) l -> Sorted follows (sort lt l).
Proof using lt_asym.
  induction 1 as [|x l Hl IH Hx]; simpl; [constructor|].
  apply insert_sorted_follows; [|done].
  apply Forall_forall. intros y Hy%list_elem_of_In%In_sort.
  rewrite Forall_forall in Hx. by apply Hx, list_elem_of_In.
Qed.
End SortStable.

Lemma sorted_items_keys_ascending (pkg_stats : gmap string stats) :
  StronglySorted (fun a b : string * stats => String.ltb a.1 b.1 = true)
                 (sorted_items pkg_stats).
Proof.
  unfold sorted_items. apply sort_StronglySorted.
  - intros x y z. apply string_ltb_trans.
  - intros [k1 s1] [k2 s2] H1 H2. simpl.
    apply list_elem_of_In, elem_of_map_to_list in H1.
    apply list_elem_of_In, elem_of_map_to_list in H2.
    destruct (string_ltb_total k1 k2) as [->|H]; [left; congruence|by right].
  - apply NoDup_map_to_list.
Qed.

Lemma build_results_keys_ascending items : forall results,
  StronglySorted (fun a b : string * stats => String.ltb a.1 b.1 = true) items ->
  build_results items = Ok results ->
  StronglySorted (fun a b => String.ltb (row_pkg a) (row_pkg b) = true) results /\
  Forall (fun r => exists item, In item items /\ row_pkg r = item.1) results.
Proof.
  induction items as [|[pkg s] items IH]; simpl; intros results Hs.
  - intros [= <-]. split; constructor.
  - apply StronglySorted_inv in Hs as [Hs Hpkg].
    destruct (0 <? total s); simpl.
    + destruct (true_div _ _); simpl; [|discriminate].
      destruct (build_results items) as [rs|]; simpl; [|discriminate].
      intros [= <-]. destruct (IH rs Hs eq_refl) as [IH1 IH2]. split.
      * constructor; [done|]. eapply Forall_impl; [exact IH2|].
        intros r (item & Hin & ->). simpl.
        rewrite Forall_forall in Hpkg. by apply (Hpkg item), list_elem_of_In.
      * constructor; [exists (pkg, s); simpl; auto|].
        eapply Forall_impl; [exact IH2|]. intros r (item & ? & ?). eauto.
    + destruct (build_results items) as [rs|]; simpl; [|discriminate].
      intros [= <-]. destruct (IH rs Hs eq_refl) as [IH1 IH2]. split; [done|].
      eapply Forall_impl; [exact IH2|]. intros r (item & ? & ?). eauto.
Qed.

(** X14. Rows with the same percentage are printed in the order of their
    keys: of two rows that follow one another, the second has no lower
    percentage, and when neither percentage is below the other the key of
    the first is the smaller one. *)
Theorem ties_in_key_order (pkg_stats : gmap string stats) results :
  build_results (sorted_items pkg_stats) = Ok results ->
  Sorted (fun r1 r2 =>
            lt (row_coverage r2) (row_coverage r1) = false /\
            (lt (row_coverage r1) (row_coverage r2) = false ->
             String.ltb (row_pkg r1) (row_pkg r2) = true))
         (sort_results results).
Proof.
  intros Hb.
  destruct (build_results_keys_ascending _ _ (sorted_items_keys_ascending pkg_stats) Hb)
    as [Hs _].
  apply (sort_follows (fun a b => lt (row_coverage a) (row_coverage b))
           (fun a b => String.ltb (row_pkg a) (row_pkg b))); [|exact Hs].
  intros x y. apply SFltb_asym.
Qed.

Lemma ties_in_key_order_witness :
  Sorted (fun r1 r2 =>
            lt (row_coverage r2) (row_coverage r1) = false /\
            (lt (row_coverage r1) (row_coverage r2) = false ->
             String.ltb (row_pkg r1) (row_pkg r2) = true))
         (sort_results
            [{| row_pkg := "github.com/junbin-yang/go-kitbox/pkg/a";
                row_coverage := of_int 100; row_status := "Good";
                row_total := 2; row_covered := 2 |};
             {| row_pkg := "github.com/junbin-yang/go-kitbox/pkg/b";
                row_coverage := of_int 100; row_status := "Good";
                row_total := 4; row_covered := 4 |}]).
Proof.
  apply (ties_in_key_order
           {["github.com/junbin-yang/go-kitbox/pkg/b" := {| total := 4; covered := 4 |};
             "github.com/junbin-yang/go-kitbox/pkg/a" := {| total := 2; covered := 2 |}]}).
  vm_compute. reflexivity.
Defined.
